(** * Content discovery and inline tag composition of the forum front end

    A shallow embedding of
    - [frontend/src/components/TagInput.tsx] (the [TagInput] component),
    - the tag composer of [ThreadEditModal],
    - the discovery logic of [ThreadsListPage] ([loadAllThreads],
      [loadThreadsWithFilters], [doSearchWithFilters], the effect that reads
      the filters from the URL) and [searchApi],
    followed by the properties of the specification that concern them.

    Conventions.  A JavaScript string is modelled by [string]: the sequence
    of its code units, for strings whose code units are below 256.  A React
    state cell is a record field; a handler is a function from the state the
    render closed over to the state after the handler's updates.  An [async]
    function is cut at its [await]s: the part before the first [await]
    returns the request it sends and a continuation, and the continuation is
    resumed with the response. *)

From Stdlib Require Import Bool Arith ZArith List String Ascii Lia DecimalString.
Import ListNotations.
Open Scope string_scope.
Open Scope Z_scope.
Set Warnings "-register-all".

(** ** JavaScript strings and values *)

Module Js.

Definition code (c : ascii) : nat := nat_of_ascii c.

Definition inRange (lo hi : nat) (c : ascii) : bool :=
  (Nat.leb lo (code c) && Nat.leb (code c) hi)%bool.

(** The white space and line terminators that [String.prototype.trim]
    removes, among the code units below 256. *)
Definition isWhiteSpace (c : ascii) : bool :=
  (inRange 9 13 c || Nat.eqb (code c) 32 || Nat.eqb (code c) 160)%bool.

Definition isEmpty (s : string) : bool :=
  match s with EmptyString => true | String _ _ => false end.

Fixpoint trimStart (s : string) : string :=
  match s with
  | EmptyString => EmptyString
  | String c r => if isWhiteSpace c then trimStart r else s
  end.

Fixpoint trimEnd (s : string) : string :=
  match s with
  | EmptyString => EmptyString
  | String c r =>
      let r' := trimEnd r in
      if (isWhiteSpace c && isEmpty r')%bool then EmptyString else String c r'
  end.

(** [s.trim()] *)
Definition trim (s : string) : string := trimEnd (trimStart s).

(** A string that does not begin with white space. *)
Definition startsClean (s : string) : bool :=
  match s with
  | EmptyString => true
  | String c _ => negb (isWhiteSpace c)
  end.

(** The upper-case letters below 256: A-Z and the accented capitals
    U+00C0..U+00DE without the multiplication sign U+00D7. *)
Definition isUpper (c : ascii) : bool :=
  (inRange 65 90 c || (inRange 192 222 c && negb (Nat.eqb (code c) 215)))%bool.

Definition lowerChar (c : ascii) : ascii :=
  if isUpper c then ascii_of_nat (code c + 32) else c.

Fixpoint mapChars (f : ascii -> ascii) (s : string) : string :=
  match s with
  | EmptyString => EmptyString
  | String c r => String (f c) (mapChars f r)
  end.

(** [s.toLowerCase()] *)
Definition toLowerCase (s : string) : string := mapChars lowerChar s.

Fixpoint filterChars (p : ascii -> bool) (s : string) : string :=
  match s with
  | EmptyString => EmptyString
  | String c r => if p c then String c (filterChars p r) else filterChars p r
  end.

Fixpoint existsChar (p : ascii -> bool) (s : string) : bool :=
  match s with
  | EmptyString => false
  | String c r => (p c || existsChar p r)%bool
  end.

Fixpoint forallChar (p : ascii -> bool) (s : string) : bool :=
  match s with
  | EmptyString => true
  | String c r => (p c && forallChar p r)%bool
  end.

(** [s.split(sep)] for a separator of one character: never the empty
    array, [''.split(',')] is [['']]. *)
Fixpoint split (sep : ascii) (s : string) : list string :=
  match s with
  | EmptyString => [EmptyString]
  | String c r =>
      if Ascii.eqb c sep then EmptyString :: split sep r
      else match split sep r with
           | h :: t => String c h :: t
           | [] => [String c EmptyString]
           end
  end.

(** [a.length > 0] is [negb (isNil a)]. *)
Definition isNil {A : Type} (a : list A) : bool :=
  match a with [] => true | _ :: _ => false end.

(** [a.join(sep)] on an array of strings *)
Definition join (sep : string) (a : list string) : string := String.concat sep a.

(** [a.includes(x)] on an array of strings *)
Definition includes (a : list string) (x : string) : bool :=
  existsb (String.eqb x) a.

(** [s.slice(0, -1)] *)
Fixpoint dropLast (s : string) : string :=
  match s with
  | EmptyString => EmptyString
  | String c r => if isEmpty r then EmptyString else String c (dropLast r)
  end.

(** [a[a.length - 1]] on the result of a [split] *)
Definition lastPart (parts : list string) : string := List.last parts EmptyString.

(** The values a parsed JSON body and the expressions over it can take.
    Numbers are the integers (ids, counts, pages). *)
Inductive JsVal : Type :=
| JUndefined
| JNull
| JBool (b : bool)
| JNum (n : Z)
| JStr (s : string)
| JArr (items : list JsVal)
| JObj (fields : list (string * JsVal)).

Fixpoint lookupField (k : string) (fields : list (string * JsVal)) : JsVal :=
  match fields with
  | [] => JUndefined
  | (k', v) :: rest => if String.eqb k k' then v else lookupField k rest
  end.

(** [v.k] for a key that is no built-in property ([results], [count],
    [error], [threads], [total_threads] and the fields of a thread):
    [None] is the [TypeError] of a property read on [null] or
    [undefined]. *)
Definition getProp (v : JsVal) (k : string) : option JsVal :=
  match v with
  | JUndefined | JNull => None
  | JObj fields => Some (lookupField k fields)
  | _ => Some JUndefined
  end.

(** [a ?? b] *)
Definition nullish (a b : JsVal) : JsVal :=
  match a with
  | JUndefined | JNull => b
  | _ => a
  end.

(** ToBoolean *)
Definition truthy (v : JsVal) : bool :=
  match v with
  | JUndefined | JNull => false
  | JBool b => b
  | JNum n => negb (n =? 0)
  | JStr s => negb (isEmpty s)
  | JArr _ | JObj _ => true
  end.

(** [a || b] *)
Definition orElse (a b : JsVal) : JsVal := if truthy a then a else b.

Definition isArray (v : JsVal) : bool :=
  match v with JArr _ => true | _ => false end.

(** [String(n)] for an integer [n] of magnitude below 10^21, which
    JavaScript prints with all its digits. *)
Definition stringOfZ (n : Z) : string := NilZero.string_of_int (Z.to_int n).

(** ToString, as [new Error(v)] and [String(v)] apply it. *)
Fixpoint toString (v : JsVal) : string :=
  match v with
  | JUndefined => "undefined"
  | JNull => "null"
  | JBool true => "true"
  | JBool false => "false"
  | JNum n => stringOfZ n
  | JStr s => s
  | JArr items =>
      join "," (List.map (fun x => match x with
                                   | JUndefined | JNull => EmptyString
                                   | _ => toString x
                                   end) items)
  | JObj _ => "[object Object]"
  end.

End Js.

(** ** The tag composer of [TagInput] *)

Module TagInput.
Import Js.

(** [/[a-zA-Z0-9_-]/] on one character *)
Definition isTagChar (c : ascii) : bool :=
  (inRange 97 122 c || inRange 65 90 c || inRange 48 57 c
   || Nat.eqb (code c) 95 || Nat.eqb (code c) 45)%bool.

(** [/[a-zA-Z0-9_-]/.test(ch)] *)
Definition valid (ch : string) : bool := existsChar isTagChar ch.

(** [s.replace(/[^a-zA-Z0-9_-]/g, '')] *)
Definition validChars (s : string) : string := filterChars isTagChar s.

(** The component's two state cells, the [value] prop its parent owns,
    and the text of the uncontrolled [<input>] element the handlers read
    and write through [e.target.value] and [e.currentTarget.value].
    Both parents pass [onChange(newTags)] on to the [value] they hand
    back, so [onChange] is the assignment of [value]. *)
Record State : Type := mkState {
  isTagging : bool;
  tagDraft : string;
  value : list string;
  inputValue : string
}.

Definition initial (tags : list string) : State :=
  mkState false EmptyString tags EmptyString.

(** [handleKeyDown]: the state after the handler and whether it called
    [e.preventDefault()]. *)
Definition handleKeyDown (disabled : bool) (st : State) (key : string)
  : State * bool :=
  if disabled then (st, false)
  else if isTagging st then
    if String.eqb key "Enter" then
      let cleaned := toLowerCase (trim (tagDraft st)) in
      let newTags :=
        if (negb (isEmpty cleaned) && negb (includes (value st) cleaned))%bool
        then (value st ++ [cleaned])%list else value st in
      (mkState false EmptyString newTags EmptyString, true)
    else if String.eqb key "Escape" then
      (mkState false EmptyString (value st) EmptyString, true)
    else if (String.eqb key "Backspace" && isEmpty (tagDraft st))%bool then
      (mkState false (tagDraft st) (value st) EmptyString, true)
    else if (Nat.eqb (String.length key) 1 && negb (valid key))%bool then
      (st, true)
    else (st, false)
  else (st, false).

(** [handleInputChange], run on the state whose [inputValue] is the
    text the element holds after the edit. *)
Definition handleInputChange (disabled : bool) (st : State) : State :=
  if disabled then st
  else if isTagging st then
    let v := validChars (inputValue st) in
    mkState true v (value st) v
  else if existsChar (Ascii.eqb "#") (inputValue st) then
    let v := validChars (lastPart (split "#" (inputValue st))) in
    mkState true v (value st) v
  else if negb (isEmpty (inputValue st)) then
    mkState false (tagDraft st) (value st) EmptyString
  else st.

(** What the browser does to the text of a focused input, with the caret
    at its end, when a key is pressed and the handler did not prevent it:
    a key of one character is inserted, Backspace removes the last
    character, the other keys leave the text alone. *)
Definition defaultAction (key : string) (text : string) : string :=
  if String.eqb key "Backspace" then dropLast text
  else if Nat.eqb (String.length key) 1 then text ++ key
  else text.

Definition withInput (st : State) (text : string) : State :=
  mkState (isTagging st) (tagDraft st) (value st) text.

(** The [change] event fires when the edit changed the text. *)
Definition edit (disabled : bool) (st : State) (text : string) : State :=
  if String.eqb text (inputValue st) then st
  else handleInputChange disabled (withInput st text).

(** One keystroke: [keydown], then the default action and its [change]
    event.  A disabled input receives no keystroke. *)
Definition keystroke (disabled : bool) (st : State) (key : string) : State :=
  if disabled then st
  else
    let '(st1, prevented) := handleKeyDown disabled st key in
    if prevented then st1
    else edit disabled st1 (defaultAction key (inputValue st1)).

(** Text pasted at the end of the input. *)
Definition paste (disabled : bool) (st : State) (text : string) : State :=
  if disabled then st else edit disabled st (inputValue st ++ text).

Definition keystrokes (disabled : bool) (st : State) (keys : list string) : State :=
  fold_left (keystroke disabled) keys st.

End TagInput.

(** ** The tag composer of [ThreadEditModal] *)

Module ThreadEditModal.
Import Js.

(** The three state cells of the composer.  The text of its input element
    is read by no handler (the element has no [onChange]) and is left
    out. *)
Record State : Type := mkState {
  tags : list string;
  isTagging : bool;
  tagDraft : string
}.

Definition initial (tag_names : list string) : State :=
  mkState tag_names false EmptyString.

(** The [onKeyDown] handler of the tags input: the state after it and
    whether it called [e.preventDefault()]. *)
Definition onKeyDown (st : State) (key : string) : State * bool :=
  if String.eqb key "#" then
    ((if isTagging st then st else mkState (tags st) true EmptyString), true)
  else if isTagging st then
    if String.eqb key "Enter" then
      let cleaned := toLowerCase (trim (tagDraft st)) in
      let tags' :=
        if (negb (isEmpty cleaned) && negb (includes (tags st) cleaned))%bool
        then (tags st ++ [cleaned])%list else tags st in
      (mkState tags' false EmptyString, true)
    else if String.eqb key "Backspace" then
      (mkState (tags st) (isTagging st) (dropLast (tagDraft st)), true)
    else if String.eqb key "Escape" then
      (mkState (tags st) false EmptyString, true)
    else if Nat.eqb (String.length key) 1 then
      if TagInput.valid key then
        (mkState (tags st) (isTagging st) (tagDraft st ++ key), true)
      else (st, true)
    else (st, false)
  else (st, false).

Definition keystroke (st : State) (key : string) : State := fst (onKeyDown st key).

(** Pasted text goes to the input element only: no handler runs. *)
Definition paste (st : State) (text : string) : State := st.

Definition keystrokes (st : State) (keys : list string) : State :=
  fold_left keystroke keys st.

End ThreadEditModal.

(** ** The two composers side by side *)

Module Composer.
Import Js.

(** The buffer matches [[a-zA-Z0-9_-]*]. *)
Definition validBuffer (s : string) : bool := forallChar TagInput.isTagChar s.

(** The two composers are in the same composer state: same mode, same
    draft, same committed tags. *)
Definition agree (st : TagInput.State) (m : ThreadEditModal.State) : Prop :=
  TagInput.isTagging st = ThreadEditModal.isTagging m
  /\ TagInput.tagDraft st = ThreadEditModal.tagDraft m
  /\ TagInput.value st = ThreadEditModal.tags m.

(** What [TagInput] keeps true of its input element between events: while
    drafting the element shows the draft, otherwise it is empty; and the
    draft is valid. *)
Definition settled (st : TagInput.State) : Prop :=
  TagInput.inputValue st
    = (if TagInput.isTagging st then TagInput.tagDraft st else EmptyString)
  /\ validBuffer (TagInput.tagDraft st) = true.

(** The one keystroke on which the specification says the sites differ:
    Backspace while drafting with an empty buffer. *)
Definition backspaceAtEmpty (st : TagInput.State) (key : string) : Prop :=
  TagInput.isTagging st = true /\ TagInput.tagDraft st = EmptyString
  /\ key = "Backspace".

End Composer.

(** ** Query strings *)

Module URLSearchParams.

(** A parsed query string: the decoded name/value pairs in order. *)
Definition t : Type := list (string * string).

(** [params.get(name)]: the first value of that name, or [null]. *)
Fixpoint get (params : t) (name : string) : option string :=
  match params with
  | [] => None
  | (k, v) :: rest => if String.eqb k name then Some v else get rest name
  end.

(** [params.set(name, value)]: replaces the value of the first pair of
    that name and removes its other pairs, or appends a new pair. *)
Fixpoint remove (params : t) (name : string) : t :=
  match params with
  | [] => []
  | (k, v) :: rest =>
      if String.eqb k name then remove rest name else (k, v) :: remove rest name
  end.

Fixpoint set (params : t) (name value : string) : t :=
  match params with
  | [] => [(name, value)]
  | (k, v) :: rest =>
      if String.eqb k name then (name, value) :: remove rest name
      else (k, v) :: set rest name value
  end.

End URLSearchParams.

(** ** Filter state and its query-string form *)

Module FilterStateCodec.
Import Js.

(** The filter of the threads page.  The page keeps the category as the
    string of the select box, [''] for none. *)
Record FilterState : Type := mkFilterState {
  keyword : string;
  tags : list string;
  categoryId : string;
  page : Z
}.

(** [params.get(name) || ''] *)
Definition getOrEmpty (params : URLSearchParams.t) (name : string) : string :=
  match URLSearchParams.get params name with
  | Some v => v
  | None => EmptyString
  end.

(** The filter the location effect of [ThreadsListPage] reads from
    [location.search]: the values it gives to [setTags], [setCategory]
    and [setQ], and the page it then asks for, which is the constant 1. *)
Definition decode (search : URLSearchParams.t) : FilterState :=
  let tagParam := getOrEmpty search "tag" in
  let categoryParam := getOrEmpty search "category" in
  let searchParam := getOrEmpty search "q" in
  mkFilterState
    searchParam
    (if isEmpty tagParam then [] else List.map trim (split "," tagParam))
    categoryParam
    1.

(** Modelled from the spec: the encoder of the filter into the query
    string of the page, which the sources do not contain.  Section 4.2:
    [encode] writes the parameters [q], [tag] (comma-joined), [category]
    and [page], and omits a field entirely when it equals its default
    (keyword [''], no tags, no category, page 1). *)
Definition encode (s : FilterState) : URLSearchParams.t :=
  ((if isEmpty (keyword s) then [] else [("q", keyword s)])
   ++ (match tags s with [] => [] | _ => [("tag", join "," (tags s))] end)
   ++ (if isEmpty (categoryId s) then [] else [("category", categoryId s)])
   ++ (if page s =? 1 then [] else [("page", stringOfZ (page s))]))%list.

(** A tag that survives the comma-joined [tag] parameter: not empty, no
    comma inside, no white space around. *)
Definition plainTag (t : string) : bool :=
  (negb (isEmpty t) && negb (existsChar (fun c => Ascii.eqb c ",") t)
   && String.eqb (trim t) t)%bool.

(** The invariant the data model asks of a tag list: no duplicates, every
    tag in lower case. *)
Definition normalized (tags : list string) : Prop :=
  NoDup tags /\ Forall (fun t => toLowerCase t = t) tags.

(** Two tag lists read as sets. *)
Definition sameSet (a b : list string) : Prop := forall t, In t a <-> In t b.

End FilterStateCodec.

(** ** The discovery logic of [ThreadsListPage] *)

Module ThreadsListPage.
Import Js.

Definition PAGE_SIZE : Z := 20.

(** The state cells of the page that discovery reads and writes
    ([categories] is filled by a request of its own and is left out).
    [threads] and [total] hold what the responses put there, whatever
    its shape. *)
Record State : Type := mkState {
  threads : JsVal;
  error : option string;
  q : string;
  tags : list string;
  category : string;
  loading : bool;
  page : Z;
  total : JsVal;
  isSearching : bool
}.

Definition initial : State :=
  mkState (JArr []) None EmptyString [] EmptyString false 1 JNull false.

Definition setThreads (v : JsVal) (st : State) : State :=
  mkState v (error st) (q st) (tags st) (category st) (loading st) (page st)
    (total st) (isSearching st).
Definition setError (v : option string) (st : State) : State :=
  mkState (threads st) v (q st) (tags st) (category st) (loading st) (page st)
    (total st) (isSearching st).
Definition setQ (v : string) (st : State) : State :=
  mkState (threads st) (error st) v (tags st) (category st) (loading st) (page st)
    (total st) (isSearching st).
Definition setTags (v : list string) (st : State) : State :=
  mkState (threads st) (error st) (q st) v (category st) (loading st) (page st)
    (total st) (isSearching st).
Definition setCategory (v : string) (st : State) : State :=
  mkState (threads st) (error st) (q st) (tags st) v (loading st) (page st)
    (total st) (isSearching st).
Definition setLoading (v : bool) (st : State) : State :=
  mkState (threads st) (error st) (q st) (tags st) (category st) v (page st)
    (total st) (isSearching st).
Definition setPage (v : Z) (st : State) : State :=
  mkState (threads st) (error st) (q st) (tags st) (category st) (loading st) v
    (total st) (isSearching st).
Definition setTotal (v : JsVal) (st : State) : State :=
  mkState (threads st) (error st) (q st) (tags st) (category st) (loading st)
    (page st) v (isSearching st).
Definition setIsSearching (v : bool) (st : State) : State :=
  mkState (threads st) (error st) (q st) (tags st) (category st) (loading st)
    (page st) (total st) v.

(** The three state cells the result page is rendered from. *)
Definition resultPage (st : State) : JsVal * JsVal * Z :=
  (threads st, total st, page st).

(** [{error && (<div className="alert alert-danger ..." role="alert">
    {error} ...)}]: the alert is rendered when [error] is neither [null]
    nor the empty string. *)
Definition alertShown (st : State) : bool :=
  match error st with
  | Some m => negb (isEmpty m)
  | None => false
  end.

(** A request to the back end, by the parameters of its query string. *)
Inductive Request : Type :=
| GetThreads (params : URLSearchParams.t)
| GetSearch (query : URLSearchParams.t).

(** What [await fetch(...)] followed by [await res.json()] gives: either
    of the two rejects with an error of some message, or there is a
    status, of which the code reads [res.ok], and a parsed body. *)
Inductive Response : Type :=
| Rejected (message : string)
| Reply (ok : bool) (data : JsVal).

(** A computation that returns or throws an error with a message. *)
Inductive Outcome (A : Type) : Type :=
| Return (a : A)
| Throw (message : string).
Arguments Return {A} a.
Arguments Throw {A} message.

Definition bind {A B : Type} (o : Outcome A) (k : A -> Outcome B) : Outcome B :=
  match o with
  | Return a => k a
  | Throw m => Throw m
  end.

Notation "'let*' x ':=' o 'in' k" := (bind o (fun x => k))
  (at level 10, x name, o at level 100, k at level 200).

(** The suspended calls: what a call waits for and the variables its
    continuation closes over. *)
Inductive Pending : Type :=
| AwaitThreads (targetPage : Z)
| AwaitSearch (tagsToUse : list string) (categoryToUse : string) (targetPage : Z)
| AwaitFilter (res : JsVal) (searchResults : list JsVal) (targetPage : Z).

Section Engine.

(** The message the JavaScript engine gives to a [TypeError]. *)
Variable typeErrorMessage : string.

(** [v.k], throwing on [null] and [undefined]. *)
Definition prop (v : JsVal) (k : string) : Outcome JsVal :=
  match getProp v k with
  | Some x => Return x
  | None => Throw typeErrorMessage
  end.

Definition summaryFields : list string :=
  ["id"; "title"; "author_display_name"; "reply_count"; "like_count";
   "category_name"; "category"; "tags"; "tags_flat"].

Definition fieldOf (t : JsVal) (k : string) : JsVal :=
  match getProp t k with
  | Some x => x
  | None => JUndefined
  end.

(** The callback of the two [map]s that build a [ThreadSummary]. *)
Definition toSummary (t : JsVal) : Outcome JsVal :=
  match t with
  | JUndefined | JNull => Throw typeErrorMessage
  | _ => Return (JObj (List.map (fun k => (k, fieldOf t k)) summaryFields))
  end.

Fixpoint mapItems (f : JsVal -> Outcome JsVal) (items : list JsVal)
  : Outcome (list JsVal) :=
  match items with
  | [] => Return []
  | x :: rest =>
      let* y := f x in
      let* ys := mapItems f rest in
      Return (y :: ys)
  end.

(** [v.map(f)]: only an array has a [map]. *)
Definition arrayMap (v : JsVal) (f : JsVal -> Outcome JsVal) : Outcome (list JsVal) :=
  match v with
  | JArr items => mapItems f items
  | _ => Throw typeErrorMessage
  end.

(** [new Error(v || fallback).message] *)
Definition errorMessage (v : JsVal) (fallback : string) : string :=
  if truthy v then toString v else fallback.

(** The query of [loadAllThreads] and [loadThreadsWithFilters]. *)
Definition listParams (tagsToUse : list string) (categoryToUse : string)
  (targetPage : Z) : URLSearchParams.t :=
  let params := URLSearchParams.set [] "page" (stringOfZ targetPage) in
  let params := if negb (isNil tagsToUse)
                then URLSearchParams.set params "tag" (join "," tagsToUse)
                else params in
  if isEmpty (trim categoryToUse) then params
  else URLSearchParams.set params "category" (trim categoryToUse).

(** The query of the second request of [doSearchWithFilters]. *)
Definition filterParams (threadIds : list JsVal) (tagsToUse : list string)
  (categoryToUse : string) : URLSearchParams.t :=
  let params := URLSearchParams.set [] "ids" (toString (JArr threadIds)) in
  let params := if negb (isNil tagsToUse)
                then URLSearchParams.set params "tag" (join "," tagsToUse)
                else params in
  if isEmpty (trim categoryToUse) then params
  else URLSearchParams.set params "category" (trim categoryToUse).

(** The query [searchApi] builds from
    [{ q, type: 'threads', sort: 'relevance', page, limit: PAGE_SIZE }]. *)
Definition searchQuery (keyword : string) (targetPage : Z) : URLSearchParams.t :=
  let query := URLSearchParams.set [] "q" keyword in
  let query := URLSearchParams.set query "type" "threads" in
  let query := URLSearchParams.set query "sort" "relevance" in
  let query := if targetPage =? 0 then query
               else URLSearchParams.set query "page" (stringOfZ targetPage) in
  URLSearchParams.set query "limit" (stringOfZ PAGE_SIZE).

(** Every call starts with [setLoading(true); setError(null)]. *)
Definition begin (st : State) : State := setError None (setLoading true st).

(** [loadThreadsWithFilters], up to its [await]. *)
Definition loadThreadsWithFilters (tagsToUse : list string) (categoryToUse : string)
  (targetPage : Z) : Request * Pending :=
  (GetThreads (listParams tagsToUse categoryToUse targetPage),
   AwaitThreads targetPage).

(** [doSearchWithFilters], up to its first [await]. *)
Definition doSearchWithFilters (keyword : string) (tagsToUse : list string)
  (categoryToUse : string) (targetPage : Z) : Request * Pending :=
  if isEmpty (trim keyword) then
    loadThreadsWithFilters tagsToUse categoryToUse targetPage
  else
    (GetSearch (searchQuery keyword targetPage),
     AwaitSearch tagsToUse categoryToUse targetPage).

(** [doSearch] and [loadAllThreads] read [q], [tags] and [category] from
    the state of the render that created them. *)
Definition doSearch (render : State) (targetPage : Z) : Request * Pending :=
  doSearchWithFilters (q render) (tags render) (category render) targetPage.

Definition loadAllThreads (render : State) (targetPage : Z) : Request * Pending :=
  if negb (isEmpty (trim (q render))) then doSearch render targetPage
  else
    (GetThreads (listParams (tags render) (category render) targetPage),
     AwaitThreads targetPage).

(** What the body of a [try] block arrives at once the response is
    there: the four assignments that commit a result page, or a further
    request to wait for. *)
Inductive Next : Type :=
| Commit (results : JsVal) (totalThreads : JsVal) (targetPage : Z) (searching : bool)
| Ask (request : Request) (continuation : Pending).

(** [results.length] *)
Definition lengthOf (v : JsVal) : JsVal :=
  match v with
  | JArr items => JNum (Z.of_nat (List.length items))
  | _ => JUndefined
  end.

(** The [try] block of [loadAllThreads] and [loadThreadsWithFilters]
    after the [await]s.  No state is assigned before the last point that
    can throw, so the block is a computation of what to commit. *)
Definition threadsBody (r : Response) (targetPage : Z) : Outcome Next :=
  match r with
  | Rejected m => Throw m
  | Reply ok data =>
      if negb ok then
        let* e := prop data "error" in
        Throw (errorMessage e "Failed to load threads")
      else
        let* rs := prop data "results" in
        let results := nullish rs data in
        let* count := prop data "count" in
        let totalThreads :=
          nullish count (if isArray results then lengthOf results else JNull) in
        Return (Commit results totalThreads targetPage false)
  end.

(** [searchApi] after its [await]s. *)
Definition searchApi (r : Response) : Outcome JsVal :=
  match r with
  | Rejected m => Throw m
  | Reply ok data =>
      if negb ok then
        let* e := prop data "error" in
        Throw (errorMessage e "Search failed")
      else Return data
  end.

(** The end of the [try] block of [doSearchWithFilters]:
    [setThreads(searchResults); setTotal(res.total_threads || 0);
     setPage(targetPage); setIsSearching(true)]. *)
Definition commitSearch (res : JsVal) (searchResults : list JsVal) (targetPage : Z)
  : Outcome Next :=
  let* t := prop res "total_threads" in
  Return (Commit (JArr searchResults) (orElse t (JNum 0)) targetPage true).

(** [doSearchWithFilters] from the answer of [searchApi] to the second
    [fetch] or to the commit. *)
Definition searchBody (r : Response) (tagsToUse : list string)
  (categoryToUse : string) (targetPage : Z) : Outcome Next :=
  let* res := searchApi r in
  let* ts := prop res "threads" in
  let* searchResults := arrayMap ts toSummary in
  if (negb (isEmpty (trim categoryToUse)) || negb (isNil tagsToUse))%bool then
    let threadIds := List.map (fun t => fieldOf t "id") searchResults in
    if negb (isNil threadIds) then
      Return (Ask (GetThreads (filterParams threadIds tagsToUse categoryToUse))
                  (AwaitFilter res searchResults targetPage))
    else commitSearch res searchResults targetPage
  else commitSearch res searchResults targetPage.

(** [doSearchWithFilters] from the answer of the second [fetch] on. *)
Definition filterBody (r : Response) (res : JsVal) (searchResults : list JsVal)
  (targetPage : Z) : Outcome Next :=
  match r with
  | Rejected m => Throw m
  | Reply ok filterData =>
      if ok then
        let* rs := prop filterData "results" in
        let* filtered := arrayMap (nullish rs filterData) toSummary in
        commitSearch res filtered targetPage
      else commitSearch res searchResults targetPage
  end.

(** The assignments of a commit, and the [finally] block. *)
Definition commit (results totalThreads : JsVal) (targetPage : Z) (searching : bool)
  (st : State) : State :=
  setLoading false
    (setIsSearching searching
       (setPage targetPage (setTotal totalThreads (setThreads results st)))).

Definition settle (n : Next) (st : State) : State * option (Request * Pending) :=
  match n with
  | Commit results totalThreads targetPage searching =>
      (commit results totalThreads targetPage searching st, None)
  | Ask request continuation => (st, Some (request, continuation))
  end.

(** [catch (err) { setError(err.message) }] of the listing calls. *)
Definition catchThreads (m : string) (st : State) : State :=
  setLoading false (setError (Some m) st).

(** [catch (e) { setError(e?.message || 'Search failed') }] *)
Definition catchSearch (m : string) (st : State) : State :=
  setLoading false (setError (Some (if isEmpty m then "Search failed" else m)) st).

(** The [try] block of a suspended call, from its response on. *)
Definition body (p : Pending) (r : Response) : Outcome Next :=
  match p with
  | AwaitThreads targetPage => threadsBody r targetPage
  | AwaitSearch tagsToUse categoryToUse targetPage =>
      searchBody r tagsToUse categoryToUse targetPage
  | AwaitFilter res searchResults targetPage =>
      filterBody r res searchResults targetPage
  end.

(** The [catch] block of the function the call belongs to. *)
Definition catchOf (p : Pending) (m : string) (st : State) : State :=
  match p with
  | AwaitThreads _ => catchThreads m st
  | AwaitSearch _ _ _ | AwaitFilter _ _ _ => catchSearch m st
  end.

(** A suspended call is resumed with its response, on the state the page
    has at that moment. *)
Definition resume (st : State) (p : Pending) (r : Response)
  : State * option (Request * Pending) :=
  match body p r with
  | Return n => settle n st
  | Throw m => (catchOf p m st, None)
  end.

(** The effect on [location.search]: it assigns the filters read from
    the URL and calls [doSearch(1)] or [loadAllThreads(1)], which still
    see the filters of the render the effect belongs to. *)
Definition onLocation (loggedIn : bool) (render : State)
  (search : URLSearchParams.t) : State * option (Request * Pending) :=
  if negb loggedIn then (render, None)
  else
    let f := FilterStateCodec.decode search in
    let st := setQ (FilterStateCodec.keyword f)
                (setCategory (FilterStateCodec.categoryId f)
                   (setTags (FilterStateCodec.tags f) render)) in
    (begin st,
     Some (if negb (isEmpty (trim (FilterStateCodec.keyword f)))
           then doSearch render 1 else loadAllThreads render 1)).

(** *** Overlapping calls

    The page with the calls that are suspended, in the order they were
    issued.  A slot is emptied when its call has run to its end. *)
Record World : Type := mkWorld {
  ui : State;
  waiting : list (option Pending)
}.

Inductive Event : Type :=
| CallDoSearchWithFilters (keyword : string) (tagsToUse : list string)
    (categoryToUse : string) (targetPage : Z)
| CallLoadThreadsWithFilters (tagsToUse : list string) (categoryToUse : string)
    (targetPage : Z)
| CallLoadAllThreads (targetPage : Z)
| Arrive (call : nat) (r : Response).

Definition issue (w : World) (c : Request * Pending) : World :=
  mkWorld (begin (ui w)) (waiting w ++ [Some (snd c)]).

Fixpoint replace {A : Type} (n : nat) (x : A) (l : list A) : list A :=
  match l, n with
  | [], _ => []
  | _ :: rest, O => x :: rest
  | y :: rest, S n' => y :: replace n' x rest
  end.

Definition step (w : World) (e : Event) : World :=
  match e with
  | CallDoSearchWithFilters keyword tagsToUse categoryToUse targetPage =>
      issue w (doSearchWithFilters keyword tagsToUse categoryToUse targetPage)
  | CallLoadThreadsWithFilters tagsToUse categoryToUse targetPage =>
      issue w (loadThreadsWithFilters tagsToUse categoryToUse targetPage)
  | CallLoadAllThreads targetPage =>
      issue w (loadAllThreads (ui w) targetPage)
  | Arrive call r =>
      match nth_error (waiting w) call with
      | Some (Some p) =>
          let '(st, next) := resume (ui w) p r in
          mkWorld st (replace call (option_map snd next) (waiting w))
      | _ => w
      end
  end.

Definition run (w : World) (events : list Event) : World :=
  fold_left step events w.

End Engine.

End ThreadsListPage.

(** ** Colours of tags and categories *)

Module ColorAssigner.
Import Js.

(** [tagColors] of [TagInput] and of [ThreadEditModal]. *)
Definition tagColors : list string :=
  ["#0d6efd"; "#198754"; "#6f42c1"; "#d63384"; "#fd7e14"; "#20c997";
   "#6c757d"; "#6610f2"].

(** [categoryColors] of [ThreadsListPage] and of [ThreadCreatePage]. *)
Definition categoryColors : list string :=
  ["#0d6efd"; "#198754"; "#6f42c1"; "#d63384"; "#fd7e14"; "#20c997";
   "#6c757d"; "#6610f2"; "#dc3545"; "#ffc107"; "#17a2b8"; "#28a745"].

(** [x >>> 0] on an integer. *)
Definition toUint32 (x : Z) : Z := x mod 2 ^ 32.

(** The loop [hash = (hash * 31 + name.charCodeAt(i)) >>> 0], from
    a given value of [hash] over the characters that are left. *)
Fixpoint hashFrom (hash : Z) (name : string) : Z :=
  match name with
  | EmptyString => hash
  | String c rest => hashFrom (toUint32 (hash * 31 + Z.of_nat (code c))) rest
  end.

Definition hashOf (name : string) : Z := hashFrom 0 name.

(** [colors[i]]: [undefined] outside the array. *)
Definition at_ (colors : list string) (i : Z) : option string :=
  if i <? 0 then None else nth_error colors (Z.to_nat i).

(** [colors[hash % colors.length]] *)
Definition pick (colors : list string) (name : string) : option string :=
  at_ colors (Z.rem (hashOf name) (Z.of_nat (List.length colors))).

Definition colorForTag (name : string) : option string := pick tagColors name.

Definition getCategoryColor (categoryName : string) : option string :=
  pick categoryColors categoryName.

(** The same sum without the wrap to 32 bits:
    the polynomial in 31 whose coefficients are the character codes. *)
Fixpoint polynomial (acc : Z) (name : string) : Z :=
  match name with
  | EmptyString => acc
  | String c rest => polynomial (acc * 31 + Z.of_nat (code c)) rest
  end.

End ColorAssigner.

(** ** Typing, pasting and removing tags *)

Module ComposerInputs.
Import Js.

(** The keys that type a text, one per character. *)
Fixpoint typed (text : string) : list string :=
  match text with
  | EmptyString => []
  | String c rest => String c EmptyString :: typed rest
  end.

(** [value.filter(tag => tag !== tagToRemove)] *)
Definition without (tagToRemove : string) (tags : list string) : list string :=
  List.filter (fun tag => negb (String.eqb tag tagToRemove)) tags.

(** [removeTag] of [TagInput], the click on the cross of a chip. *)
Definition removeTag (disabled : bool) (st : TagInput.State) (tagToRemove : string)
  : TagInput.State :=
  if disabled then st
  else TagInput.mkState (TagInput.isTagging st) (TagInput.tagDraft st)
         (without tagToRemove (TagInput.value st)) (TagInput.inputValue st).

(** The click on the cross of a chip in [ThreadEditModal]:
    [setTags(prev => prev.filter(x => x !== t))]. *)
Definition removeChip (m : ThreadEditModal.State) (t : string)
  : ThreadEditModal.State :=
  ThreadEditModal.mkState (without t (ThreadEditModal.tags m))
    (ThreadEditModal.isTagging m) (ThreadEditModal.tagDraft m).

(** [handleCancel] of [ThreadEditModal] and its effect on opening, as far
    as the composer goes: [setTags(thread.tag_names || [])].  Neither
    touches [isTagging] or [tagDraft]. *)
Definition resetTags (tag_names : option (list string)) (m : ThreadEditModal.State)
  : ThreadEditModal.State :=
  ThreadEditModal.mkState
    (match tag_names with Some names => names | None => [] end)
    (ThreadEditModal.isTagging m) (ThreadEditModal.tagDraft m).

(** What a user can do to the tag field of [TagInput]. *)
Inductive Input : Type :=
| Key (key : string)
| Paste (text : string)
| Remove (tag : string).

Definition feed (disabled : bool) (st : TagInput.State) (i : Input) : TagInput.State :=
  match i with
  | Key key => TagInput.keystroke disabled st key
  | Paste text => TagInput.paste disabled st text
  | Remove tag => removeTag disabled st tag
  end.

Definition feedAll (disabled : bool) (st : TagInput.State) (inputs : list Input)
  : TagInput.State :=
  fold_left (feed disabled) inputs st.

(** What a user can do to the tag field of [ThreadEditModal]. *)
Inductive ModalInput : Type :=
| ModalKey (key : string)
| ModalPaste (text : string)
| ModalRemove (tag : string)
| ModalReset (tag_names : option (list string)).

Definition modalFeed (m : ThreadEditModal.State) (i : ModalInput)
  : ThreadEditModal.State :=
  match i with
  | ModalKey key => ThreadEditModal.keystroke m key
  | ModalPaste text => ThreadEditModal.paste m text
  | ModalRemove tag => removeChip m tag
  | ModalReset tag_names => resetTags tag_names m
  end.

Definition modalFeedAll (m : ThreadEditModal.State) (inputs : list ModalInput)
  : ThreadEditModal.State :=
  fold_left modalFeed inputs m.

(** Outside Drafting the draft is empty. *)
Definition quiet (isTagging : bool) (tagDraft : string) : Prop :=
  isTagging = false -> tagDraft = EmptyString.

(** The tag that Enter commits after the text was typed into a draft. *)
Definition cleanedOf (text : string) : string :=
  toLowerCase (TagInput.validChars text).

(** The tags after that commit. *)
Definition withTag (tags : list string) (cleaned : string) : list string :=
  if (negb (isEmpty cleaned) && negb (includes tags cleaned))%bool
  then (tags ++ [cleaned])%list else tags.

End ComposerInputs.

(** ** The controls of [ThreadsListPage] *)

Module ThreadsListControls.
Import Js ThreadsListPage.

(** [Math.ceil(n / d)] on integers, for a positive [d]. *)
Definition ceilDiv (n d : Z) : Z := - ((- n) / d).

(** The Previous button: [disabled={loading || page <= 1}]. *)
Definition previousDisabled (st : State) : bool :=
  (loading st || (page st <=? 1))%bool.

(** The Next button:
    [disabled={loading || (total !== null && page >= Math.ceil(total / PAGE_SIZE))}].
    [undefined] and a plain object turn into NaN, which no page reaches;
    [true] counts as 1 and [false] as 0.  The number a string or an
    array turns into is not modelled: [None]. *)
Definition nextDisabled (st : State) : option bool :=
  match total st with
  | JNull | JUndefined | JObj _ => Some (loading st)
  | JNum n => Some (loading st || (ceilDiv n PAGE_SIZE <=? page st))%bool
  | JBool b =>
      Some (loading st || (ceilDiv (if b then 1 else 0) PAGE_SIZE <=? page st))%bool
  | JStr _ | JArr _ => None
  end.

(** The [onClick] of Previous and Next, for the page they ask for. *)
Definition paginate (render : State) (targetPage : Z) : Request * Pending :=
  if isSearching render then doSearch render targetPage
  else if (negb (isNil (tags render)) || negb (isEmpty (trim (category render))))%bool
       then loadThreadsWithFilters (tags render) (category render) targetPage
       else loadAllThreads render targetPage.

Definition onPrevious (render : State) : Request * Pending :=
  paginate render (page render - 1).

Definition onNext (render : State) : Request * Pending :=
  paginate render (page render + 1).

(** Enter in the search box and the Search button. *)
Definition onSearch (render : State) : Request * Pending :=
  doSearchWithFilters (q render) (tags render) (category render) 1.

(** [onChange] of the category select. *)
Definition onCategoryChange (render : State) (newCategory : string)
  : State * (Request * Pending) :=
  (setCategory newCategory render,
   if negb (isEmpty (trim (q render)))
   then doSearchWithFilters (q render) (tags render) newCategory 1
   else loadThreadsWithFilters (tags render) newCategory 1).

(** [onChange] of the [TagInput] of the page: the tags are assigned at
    once, the call is made by a timer, with the [q] and [category] of the
    render the handler belongs to. *)
Definition onTagsChange (render : State) (newTags : list string)
  : State * option (Request * Pending) :=
  (setTags newTags render,
   if (negb (isNil newTags) || negb (isNil (tags render)))%bool
   then Some (if negb (isEmpty (trim (q render)))
              then doSearchWithFilters (q render) newTags (category render) 1
              else loadThreadsWithFilters newTags (category render) 1)
   else None).

(** The click on a tag of a listed thread. *)
Definition onTagClick (render : State) (tagName : string)
  : State * option (Request * Pending) :=
  if (negb (isEmpty tagName) && negb (includes (tags render) tagName))%bool then
    let newTags := (tags render ++ [tagName])%list in
    (setTags newTags render,
     Some (loadThreadsWithFilters newTags (category render) 1))
  else (render, None).

(** The Clear button is rendered when [q || tags.length > 0 || category]. *)
Definition clearShown (st : State) : bool :=
  (negb (isEmpty (q st)) || negb (isNil (tags st)) || negb (isEmpty (category st)))%bool.

(** [handleClear], up to its [await]. *)
Definition handleClear (st : State) : State * Request :=
  (begin (setIsSearching false (setCategory EmptyString (setTags [] (setQ EmptyString st)))),
   GetThreads [("page", "1")]).

Section Engine.

Variable typeErrorMessage : string.

(** The [try] block of [handleClear] after the [await]s: the threads
    and the total it assigns. *)
Definition handleClearBody (r : Response) : Outcome (JsVal * JsVal) :=
  match r with
  | Rejected m => Throw m
  | Reply ok data =>
      if negb ok then
        let* e := prop typeErrorMessage data "error" in
        Throw (errorMessage e "Failed to load threads")
      else
        let* rs := prop typeErrorMessage data "results" in
        let results := nullish rs data in
        let* count := prop typeErrorMessage data "count" in
        Return (results,
                nullish count (if isArray results then lengthOf results else JNull))
  end.

(** [handleClear] from its response on. *)
Definition handleClearResume (st : State) (r : Response) : State :=
  match handleClearBody r with
  | Return (results, totalThreads) =>
      setLoading false (setPage 1 (setTotal totalThreads (setThreads results st)))
  | Throw m => catchThreads m st
  end.

(** *** A session of the page

    The page, its suspended calls and its timers. *)
Inductive Call : Type :=
| Discovery (p : Pending)
| Clearing.

Record Session : Type := mkSession {
  view : State;
  calls : list (option Call);
  timers : list (option (Request * Pending))
}.

Definition opened : Session := mkSession initial [] [].

Inductive Action : Type :=
| ClickPrevious
| ClickNext
| SubmitSearch
| TypeQuery (text : string)
| ChooseCategory (newCategory : string)
| ChangeTags (newTags : list string)
| TimerFires (timer : nat)
| ClickTag (tagName : string)
| ClickClear
| Navigate (loggedIn : bool) (search : URLSearchParams.t)
| DismissError
| Receive (call : nat) (r : Response).

(** A call is made: it starts with [setLoading(true); setError(null)]
    and is suspended at its first [await]. *)
Definition start (s : Session) (c : Request * Pending) : Session :=
  mkSession (begin (view s)) (calls s ++ [Some (Discovery (snd c))]) (timers s).

Definition withView (s : Session) (st : State) : Session :=
  mkSession st (calls s) (timers s).

(** Next is clicked unless it is known to be disabled. *)
Definition act (s : Session) (a : Action) : Session :=
  match a with
  | ClickPrevious =>
      if previousDisabled (view s) then s else start s (onPrevious (view s))
  | ClickNext =>
      match nextDisabled (view s) with
      | Some true => s
      | _ => start s (onNext (view s))
      end
  | SubmitSearch => start s (onSearch (view s))
  | TypeQuery text => withView s (setQ text (view s))
  | ChooseCategory newCategory =>
      let '(st, c) := onCategoryChange (view s) newCategory in
      start (withView s st) c
  | ChangeTags newTags =>
      let '(st, c) := onTagsChange (view s) newTags in
      mkSession st (calls s) (timers s ++ [c])
  | TimerFires timer =>
      match nth_error (timers s) timer with
      | Some (Some c) =>
          start (mkSession (view s) (calls s) (replace timer None (timers s))) c
      | _ => s
      end
  | ClickTag tagName =>
      match onTagClick (view s) tagName with
      | (st, Some c) => start (withView s st) c
      | (st, None) => withView s st
      end
  | ClickClear =>
      if clearShown (view s) then
        mkSession (fst (handleClear (view s))) (calls s ++ [Some Clearing]) (timers s)
      else s
  | Navigate loggedIn search =>
      match onLocation loggedIn (view s) search with
      | (st, Some c) =>
          mkSession st (calls s ++ [Some (Discovery (snd c))]) (timers s)
      | (st, None) => withView s st
      end
  | DismissError => withView s (setError None (view s))
  | Receive call r =>
      match nth_error (calls s) call with
      | Some (Some (Discovery p)) =>
          let '(st, next) := resume typeErrorMessage (view s) p r in
          mkSession st
            (replace call (option_map (fun c => Discovery (snd c)) next) (calls s))
            (timers s)
      | Some (Some Clearing) =>
          mkSession (handleClearResume (view s) r) (replace call None (calls s))
            (timers s)
      | _ => s
      end
  end.

Definition session (actions : list Action) : Session :=
  fold_left act actions opened.

End Engine.

(** The page a suspended call will commit. *)
Definition targetOf (p : Pending) : Z :=
  match p with
  | AwaitThreads targetPage => targetPage
  | AwaitSearch _ _ targetPage => targetPage
  | AwaitFilter _ _ targetPage => targetPage
  end.

Definition targetOfCall (c : option Call) : Z :=
  match c with
  | Some (Discovery p) => targetOf p
  | _ => 1
  end.

Definition targetOfTimer (c : option (Request * Pending)) : Z :=
  match c with
  | Some (_, p) => targetOf p
  | None => 1
  end.

(** The page shown and the page every suspended call and timer was made
    for are at least 1. *)
Definition pagesPositive (s : Session) : Prop :=
  1 <= page (view s)
  /\ Forall (fun c => 1 <= targetOfCall c) (calls s)
  /\ Forall (fun c => 1 <= targetOfTimer c) (timers s).

End ThreadsListControls.

(** ** [listCategories] *)

Module CategoriesApi.
Import Js ThreadsListPage.

Section Engine.

Variable typeErrorMessage : string.

(** [listCategories] after its [await]s:
    [(data && Array.isArray(data)) ? data : (data?.results ?? [])]. *)
Definition listCategories (r : Response) : Outcome JsVal :=
  match r with
  | Rejected m => Throw m
  | Reply ok data =>
      if negb ok then
        let* e := prop typeErrorMessage data "error" in
        Throw (errorMessage e "Failed to load categories")
      else if (truthy data && isArray data)%bool then Return data
      else Return (nullish (fieldOf data "results") (JArr []))
  end.

End Engine.

End CategoriesApi.

(** * Properties *)

(** ** Strings *)

Section StringFacts.
Import Js.

Lemma isEmpty_true (s : string) : isEmpty s = true <-> s = EmptyString.
Proof. destruct s; simpl; split; congruence. Qed.

Lemma isEmpty_false (s : string) : isEmpty s = false <-> s <> EmptyString.
Proof. destruct s; simpl; split; congruence. Qed.

Lemma includes_In (a : list string) (x : string) : includes a x = true <-> In x a.
Proof.
  unfold includes. rewrite existsb_exists. split.
  - intros [y [Hin Heq]]. apply String.eqb_eq in Heq. now subst.
  - intros Hin. exists x. split; [assumption | apply String.eqb_refl].
Qed.

Lemma includes_not_In (a : list string) (x : string) :
  includes a x = false <-> ~ In x a.
Proof.
  rewrite <- includes_In. destruct (includes a x); split; congruence.
Qed.

Lemma lowerChar_idem (c : ascii) : lowerChar (lowerChar c) = lowerChar c.
Proof. destruct c as [[] [] [] [] [] [] [] []]; vm_compute; reflexivity. Qed.

Lemma toLowerCase_idem (s : string) : toLowerCase (toLowerCase s) = toLowerCase s.
Proof.
  unfold toLowerCase. induction s as [|c r IH]; simpl; [reflexivity|].
  now rewrite lowerChar_idem, IH.
Qed.

Lemma trimEnd_idem (s : string) : trimEnd (trimEnd s) = trimEnd s.
Proof.
  induction s as [|c r IH]; simpl; [reflexivity|].
  destruct (isWhiteSpace c && isEmpty (trimEnd r))%bool eqn:E; simpl.
  - reflexivity.
  - now rewrite IH, E.
Qed.

Lemma trimStart_startsClean (s : string) : startsClean (trimStart s) = true.
Proof.
  induction s as [|c r IH]; simpl; [reflexivity|].
  destruct (isWhiteSpace c) eqn:E; [assumption|]. simpl. now rewrite E.
Qed.

Lemma trimStart_id (s : string) : startsClean s = true -> trimStart s = s.
Proof.
  destruct s as [|c r]; simpl; [reflexivity|].
  destruct (isWhiteSpace c); simpl; congruence.
Qed.

Lemma trimEnd_startsClean (s : string) :
  startsClean s = true -> startsClean (trimEnd s) = true.
Proof.
  destruct s as [|c r]; simpl; [reflexivity|]. intros H.
  destruct (isWhiteSpace c) eqn:E; simpl in *; [discriminate|]. now rewrite E.
Qed.

Lemma trim_idem (s : string) : trim (trim s) = trim s.
Proof.
  unfold trim.
  rewrite (trimStart_id (trimEnd (trimStart s))).
  - apply trimEnd_idem.
  - apply trimEnd_startsClean, trimStart_startsClean.
Qed.

Lemma forallChar_filterChars (p : ascii -> bool) (s : string) :
  forallChar p (filterChars p s) = true.
Proof.
  induction s as [|c r IH]; simpl; [reflexivity|].
  destruct (p c) eqn:E; simpl; [now rewrite E|assumption].
Qed.

Lemma filterChars_id (p : ascii -> bool) (s : string) :
  forallChar p s = true -> filterChars p s = s.
Proof.
  induction s as [|c r IH]; simpl; [reflexivity|].
  intros H. apply andb_true_iff in H as [Hc Hr]. now rewrite Hc, IH.
Qed.

Lemma forallChar_app (p : ascii -> bool) (s t : string) :
  forallChar p (s ++ t) = (forallChar p s && forallChar p t)%bool.
Proof.
  induction s as [|c r IH]; simpl; [reflexivity|].
  now rewrite IH, andb_assoc.
Qed.

Lemma forallChar_dropLast (p : ascii -> bool) (s : string) :
  forallChar p s = true -> forallChar p (dropLast s) = true.
Proof.
  induction s as [|c r IH]; simpl; [reflexivity|].
  intros H. apply andb_true_iff in H as [Hc Hr].
  destruct (isEmpty r); simpl; [reflexivity|]. now rewrite Hc, IH.
Qed.

Lemma length_dropLast (s : string) :
  s <> EmptyString -> S (String.length (dropLast s)) = String.length s.
Proof.
  induction s as [|c r IH]; simpl; [congruence|]. intros _.
  destruct r as [|d r']; [reflexivity|].
  change (isEmpty (String d r')) with false. cbv iota.
  change (String.length (String c (dropLast (String d r'))))
    with (S (String.length (dropLast (String d r')))).
  rewrite IH; [reflexivity | discriminate].
Qed.

Lemma dropLast_neq (s : string) : s <> EmptyString -> dropLast s <> s.
Proof.
  intros Hs Heq. apply length_dropLast in Hs. rewrite Heq in Hs. lia.
Qed.

Lemma length_append (s t : string) :
  String.length (s ++ t) = (String.length s + String.length t)%nat.
Proof. induction s as [|c r IH]; simpl; [reflexivity|]. now rewrite IH. Qed.

Lemma append_neq (s k : string) : String.length k = 1%nat -> (s ++ k)%string <> s.
Proof.
  intros Hk Heq. assert (H := length_append s k). rewrite Heq, Hk in H. lia.
Qed.

(** A key of one character is that character. *)
Lemma length_one (k : string) :
  String.length k = 1%nat -> exists c, k = String c EmptyString.
Proof.
  destruct k as [|c [|d r]]; simpl; intros H; try discriminate. now exists c.
Qed.

End StringFacts.

(** ** Tag composition *)

Section ComposerFacts.
Import Js Composer.

Lemma eqb_length_neq (k s : string) :
  String.length k <> String.length s -> String.eqb k s = false.
Proof. intros H. apply String.eqb_neq. intros ->. now apply H. Qed.

Lemma valid_char (c : ascii) :
  TagInput.valid (String c EmptyString) = TagInput.isTagChar c.
Proof. unfold TagInput.valid. simpl. apply orb_false_r. Qed.

Lemma validChars_id (s : string) :
  validBuffer s = true -> TagInput.validChars s = s.
Proof. apply filterChars_id. Qed.

Lemma validBuffer_validChars (s : string) :
  validBuffer (TagInput.validChars s) = true.
Proof. apply forallChar_filterChars. Qed.

Lemma validBuffer_append_key (d : string) (c : ascii) :
  validBuffer d = true -> TagInput.isTagChar c = true ->
  validBuffer (d ++ String c EmptyString) = true.
Proof.
  intros Hd Hc. unfold validBuffer in *. rewrite forallChar_app, Hd. simpl.
  now rewrite Hc.
Qed.

(** Every keystroke of [TagInput] keeps the draft valid. *)
Lemma TagInput_keystroke_valid (disabled : bool) (st : TagInput.State) (key : string) :
  validBuffer (TagInput.tagDraft st) = true ->
  validBuffer (TagInput.tagDraft (TagInput.keystroke disabled st key)) = true.
Proof.
  intros H. unfold TagInput.keystroke, TagInput.handleKeyDown, TagInput.edit,
    TagInput.handleInputChange.
  repeat match goal with
         | |- context [if ?b then _ else _] => destruct b
         | |- context [let '(_, _) := ?p in _] => destruct p
         end; simpl; auto using validBuffer_validChars.
Qed.

Lemma TagInput_paste_valid (disabled : bool) (st : TagInput.State) (text : string) :
  validBuffer (TagInput.tagDraft st) = true ->
  validBuffer (TagInput.tagDraft (TagInput.paste disabled st text)) = true.
Proof.
  intros H. unfold TagInput.paste, TagInput.edit, TagInput.handleInputChange.
  repeat match goal with
         | |- context [if ?b then _ else _] => destruct b
         end; simpl; auto using validBuffer_validChars.
Qed.

Lemma TagInput_keystrokes_valid (disabled : bool) (keys : list string) :
  forall st, validBuffer (TagInput.tagDraft st) = true ->
  validBuffer (TagInput.tagDraft (TagInput.keystrokes disabled st keys)) = true.
Proof.
  unfold TagInput.keystrokes.
  induction keys as [|k rest IH]; simpl; intros st H; [assumption|].
  apply IH. now apply TagInput_keystroke_valid.
Qed.

(** Every keystroke of the modal's composer keeps the draft valid. *)
Lemma Modal_keystroke_valid (m : ThreadEditModal.State) (key : string) :
  validBuffer (ThreadEditModal.tagDraft m) = true ->
  validBuffer (ThreadEditModal.tagDraft (ThreadEditModal.keystroke m key)) = true.
Proof.
  intros H. unfold ThreadEditModal.keystroke, ThreadEditModal.onKeyDown.
  destruct (String.eqb key "#"); [destruct (ThreadEditModal.isTagging m); simpl; auto|].
  destruct (ThreadEditModal.isTagging m); [|simpl; auto].
  destruct (String.eqb key "Enter"); [reflexivity|].
  destruct (String.eqb key "Backspace");
    [simpl; now apply forallChar_dropLast|].
  destruct (String.eqb key "Escape"); [reflexivity|].
  destruct (Nat.eqb (String.length key) 1) eqn:L; [|simpl; auto].
  apply Nat.eqb_eq, length_one in L as [c ->]. rewrite valid_char.
  destruct (TagInput.isTagChar c) eqn:V; simpl; [|assumption].
  now apply validBuffer_append_key.
Qed.

Lemma Modal_keystrokes_valid (keys : list string) :
  forall m, validBuffer (ThreadEditModal.tagDraft m) = true ->
  validBuffer (ThreadEditModal.tagDraft (ThreadEditModal.keystrokes m keys)) = true.
Proof.
  unfold ThreadEditModal.keystrokes.
  induction keys as [|k rest IH]; simpl; intros m H; [assumption|].
  apply IH. now apply Modal_keystroke_valid.
Qed.

End ComposerFacts.

(** ** The two composers compared *)

Section ComposerSteps.
Import Js Composer.

(** The keystrokes of [TagInput], case by case, from a settled state. *)
Lemma TagInput_other_key (st : TagInput.State) (key : string) :
  key <> "Enter" -> key <> "Escape" -> key <> "Backspace" ->
  String.length key <> 1%nat ->
  TagInput.keystroke false st key = st.
Proof.
  intros H1 H2 H3 HL.
  apply String.eqb_neq in H1, H2, H3. apply Nat.eqb_neq in HL.
  unfold TagInput.keystroke, TagInput.handleKeyDown, TagInput.edit,
    TagInput.defaultAction.
  rewrite H1, H2, H3, HL. simpl.
  destruct (TagInput.isTagging st); now rewrite String.eqb_refl.
Qed.

Lemma TagInput_invalid_char (disabled : bool) (st : TagInput.State) (key : string) :
  TagInput.isTagging st = true -> String.length key = 1%nat ->
  TagInput.valid key = false ->
  TagInput.keystroke disabled st key = st.
Proof.
  intros Ht Hl Hv.
  unfold TagInput.keystroke, TagInput.handleKeyDown. destruct disabled; [reflexivity|].
  rewrite Ht, Hl, Hv.
  rewrite !eqb_length_neq by (rewrite Hl; simpl; lia). reflexivity.
Qed.

Lemma TagInput_valid_char (d : string) (v : list string) (c : ascii) :
  validBuffer d = true -> TagInput.isTagChar c = true ->
  TagInput.keystroke false (TagInput.mkState true d v d) (String c EmptyString)
  = TagInput.mkState true (d ++ String c EmptyString) v (d ++ String c EmptyString).
Proof.
  intros Hd Hc. set (key := String c EmptyString).
  assert (Hl : String.length key = 1%nat) by reflexivity.
  unfold TagInput.keystroke, TagInput.handleKeyDown. cbn [TagInput.isTagging].
  rewrite !eqb_length_neq by (rewrite Hl; simpl; lia).
  unfold key at 2. rewrite valid_char, Hc, Hl. simpl.
  unfold TagInput.edit, TagInput.defaultAction. cbn [TagInput.inputValue].
  rewrite (eqb_length_neq key "Backspace") by (rewrite Hl; simpl; lia).
  rewrite Hl. simpl.
  destruct (String.eqb_spec (d ++ key) d) as [E | _];
    [now apply append_neq in E|].
  unfold TagInput.handleInputChange. simpl.
  rewrite validChars_id; [reflexivity|]. now apply validBuffer_append_key.
Qed.

Lemma TagInput_backspace (d : string) (v : list string) :
  validBuffer d = true -> d <> EmptyString ->
  TagInput.keystroke false (TagInput.mkState true d v d) "Backspace"
  = TagInput.mkState true (dropLast d) v (dropLast d).
Proof.
  intros Hd Hne. unfold TagInput.keystroke, TagInput.handleKeyDown. simpl.
  apply isEmpty_false in Hne. rewrite Hne. simpl.
  unfold TagInput.edit, TagInput.defaultAction. simpl.
  apply isEmpty_false in Hne.
  destruct (String.eqb_spec (dropLast d) d) as [E | _];
    [now apply dropLast_neq in E|].
  unfold TagInput.handleInputChange. simpl.
  rewrite validChars_id; [reflexivity|]. now apply forallChar_dropLast.
Qed.

Lemma TagInput_backspace_at_empty (v : list string) :
  TagInput.keystroke false (TagInput.mkState true EmptyString v EmptyString) "Backspace"
  = TagInput.mkState false EmptyString v EmptyString.
Proof. reflexivity. Qed.

Lemma TagInput_idle_backspace (d : string) (v : list string) :
  TagInput.keystroke false (TagInput.mkState false d v EmptyString) "Backspace"
  = TagInput.mkState false d v EmptyString.
Proof. reflexivity. Qed.

Lemma TagInput_idle_char (d : string) (v : list string) (c : ascii) :
  String c EmptyString <> "#" ->
  TagInput.keystroke false (TagInput.mkState false d v EmptyString) (String c EmptyString)
  = TagInput.mkState false d v EmptyString.
Proof.
  intros Hc.
  assert (Hf : Ascii.eqb "#" c = false)
    by (apply Ascii.eqb_neq; intros <-; now apply Hc).
  unfold TagInput.keystroke, TagInput.handleKeyDown.
  cbn [TagInput.isTagging TagInput.inputValue].
  unfold TagInput.edit, TagInput.defaultAction. cbn [TagInput.inputValue].
  rewrite (eqb_length_neq (String c EmptyString) "Backspace") by (simpl; lia).
  cbn -[Ascii.eqb]. now rewrite Hf.
Qed.

(** The keystrokes of the modal's composer. *)
Lemma Modal_other_key (m : ThreadEditModal.State) (key : string) :
  key <> "#" -> key <> "Enter" -> key <> "Escape" -> key <> "Backspace" ->
  String.length key <> 1%nat ->
  ThreadEditModal.keystroke m key = m.
Proof.
  intros H0 H1 H2 H3 HL.
  apply String.eqb_neq in H0, H1, H2, H3. apply Nat.eqb_neq in HL.
  unfold ThreadEditModal.keystroke, ThreadEditModal.onKeyDown.
  rewrite H0, H1, H2, H3, HL. now destruct (ThreadEditModal.isTagging m).
Qed.

Lemma Modal_invalid_char (m : ThreadEditModal.State) (key : string) :
  ThreadEditModal.isTagging m = true -> String.length key = 1%nat ->
  TagInput.valid key = false ->
  ThreadEditModal.keystroke m key = m.
Proof.
  intros Ht Hl Hv.
  unfold ThreadEditModal.keystroke, ThreadEditModal.onKeyDown. rewrite Ht, Hl, Hv.
  rewrite !(eqb_length_neq key "Enter"), !(eqb_length_neq key "Backspace"),
    !(eqb_length_neq key "Escape") by (rewrite Hl; simpl; lia).
  destruct (String.eqb key "#"); reflexivity.
Qed.

Lemma Modal_char (m : ThreadEditModal.State) (c : ascii) :
  String c EmptyString <> "#" ->
  ThreadEditModal.keystroke m (String c EmptyString)
  = if (ThreadEditModal.isTagging m && TagInput.isTagChar c)%bool
    then ThreadEditModal.mkState (ThreadEditModal.tags m) true
           (ThreadEditModal.tagDraft m ++ String c EmptyString)
    else m.
Proof.
  intros Hc. apply String.eqb_neq in Hc.
  unfold ThreadEditModal.keystroke, ThreadEditModal.onKeyDown. rewrite Hc.
  rewrite !eqb_length_neq by (simpl; lia). rewrite valid_char.
  destruct (ThreadEditModal.isTagging m) eqn:T; [|reflexivity].
  simpl. destruct (TagInput.isTagChar c); reflexivity.
Qed.

(** From agreeing states, every keystroke other than Backspace on an
    empty draft leads the two composers to agreeing states again. *)
Lemma keystroke_agree (st : TagInput.State) (m : ThreadEditModal.State) (key : string) :
  agree st m -> settled st -> ~ backspaceAtEmpty st key ->
  agree (TagInput.keystroke false st key) (ThreadEditModal.keystroke m key)
  /\ settled (TagInput.keystroke false st key).
Proof.
  destruct st as [tg d v iv], m as [tags tg' d'].
  unfold agree, settled, backspaceAtEmpty.
  cbn [TagInput.isTagging TagInput.tagDraft TagInput.value TagInput.inputValue
       ThreadEditModal.isTagging ThreadEditModal.tagDraft ThreadEditModal.tags].
  intros [Htg [Hd Hv]] [Hiv Hval] Hnb. subst tg' d' tags iv.
  destruct (String.eqb_spec key "Enter") as [-> | Henter].
  { destruct tg; cbn; auto. }
  destruct (String.eqb_spec key "Escape") as [-> | Hesc].
  { destruct tg; cbn; auto. }
  destruct (String.eqb_spec key "Backspace") as [-> | Hbs].
  { destruct tg.
    - assert (Hne : d <> EmptyString) by (intros ->; apply Hnb; auto).
      rewrite TagInput_backspace by assumption. cbn.
      repeat split. now apply forallChar_dropLast.
    - rewrite TagInput_idle_backspace. cbn. auto. }
  destruct (Nat.eq_dec (String.length key) 1) as [Hl | Hl].
  - apply length_one in Hl as [c ->].
    destruct (String.eqb_spec (String c EmptyString) "#") as [E | Hhash].
    + rewrite E. destruct tg; cbn; auto.
    + rewrite Modal_char by assumption. cbn [ThreadEditModal.isTagging
        ThreadEditModal.tags ThreadEditModal.tagDraft].
      destruct tg.
      * destruct (TagInput.isTagChar c) eqn:V.
        -- rewrite TagInput_valid_char by assumption. cbn.
           repeat split. now apply validBuffer_append_key.
        -- rewrite TagInput_invalid_char
             by (try reflexivity; now rewrite valid_char).
           cbn. auto.
      * rewrite TagInput_idle_char by assumption. cbn. auto.
  - assert (Hhash : key <> "#") by (intros ->; now apply Hl).
    rewrite TagInput_other_key, Modal_other_key by assumption. cbn. auto.
Qed.

End ComposerSteps.

Section ComposerClaims.
Import Js Composer.

(** C6. In the Drafting state Enter commits: when the trimmed, lowercased
    buffer is non-empty and not yet among the committed tags it is
    appended to them, otherwise the tags are unchanged; either way the
    buffer is cleared and the composer is Idle again.  This holds for
    [TagInput] and for the composer of [ThreadEditModal].  So [#ABC] then
    [#abc] on no tags gives the one tag [abc], and [#rust] then Enter on
    no tags gives the tags [rust], an empty buffer and the Idle state. *)
Theorem enter_commits_tag (st : TagInput.State) (m : ThreadEditModal.State) :
  TagInput.isTagging st = true ->
  ThreadEditModal.isTagging m = true ->
  (let cleaned := toLowerCase (trim (TagInput.tagDraft st)) in
   let st' := TagInput.keystroke false st "Enter" in
   (cleaned <> EmptyString /\ ~ In cleaned (TagInput.value st) ->
    TagInput.value st' = (TagInput.value st ++ [cleaned])%list)
   /\ (cleaned = EmptyString \/ In cleaned (TagInput.value st) ->
       TagInput.value st' = TagInput.value st)
   /\ TagInput.tagDraft st' = EmptyString
   /\ TagInput.inputValue st' = EmptyString
   /\ TagInput.isTagging st' = false)
  /\ (let cleaned := toLowerCase (trim (ThreadEditModal.tagDraft m)) in
      let m' := ThreadEditModal.keystroke m "Enter" in
      (cleaned <> EmptyString /\ ~ In cleaned (ThreadEditModal.tags m) ->
       ThreadEditModal.tags m' = (ThreadEditModal.tags m ++ [cleaned])%list)
      /\ (cleaned = EmptyString \/ In cleaned (ThreadEditModal.tags m) ->
          ThreadEditModal.tags m' = ThreadEditModal.tags m)
      /\ ThreadEditModal.tagDraft m' = EmptyString
      /\ ThreadEditModal.isTagging m' = false)
  /\ TagInput.keystrokes false (TagInput.initial [])
       ["#"; "A"; "B"; "C"; "Enter"; "#"; "a"; "b"; "c"; "Enter"]
     = TagInput.mkState false EmptyString ["abc"] EmptyString
  /\ ThreadEditModal.keystrokes (ThreadEditModal.initial [])
       ["#"; "A"; "B"; "C"; "Enter"; "#"; "a"; "b"; "c"; "Enter"]
     = ThreadEditModal.mkState ["abc"] false EmptyString
  /\ TagInput.keystrokes false (TagInput.initial []) ["#"; "r"; "u"; "s"; "t"; "Enter"]
     = TagInput.mkState false EmptyString ["rust"] EmptyString
  /\ ThreadEditModal.keystrokes (ThreadEditModal.initial [])
       ["#"; "r"; "u"; "s"; "t"; "Enter"]
     = ThreadEditModal.mkState ["rust"] false EmptyString.
Proof.
  intros Hst Hm. split; [|split; [|repeat split; reflexivity]].
  - unfold TagInput.keystroke, TagInput.handleKeyDown. rewrite Hst. simpl.
    set (cleaned := toLowerCase (trim (TagInput.tagDraft st))).
    repeat split.
    + intros [Hne Hnin]. apply isEmpty_false in Hne. apply includes_not_In in Hnin.
      now rewrite Hne, Hnin.
    + intros [He | Hin].
      * apply isEmpty_true in He. now rewrite He.
      * apply includes_In in Hin. rewrite Hin. simpl. now rewrite andb_false_r.
  - unfold ThreadEditModal.keystroke, ThreadEditModal.onKeyDown. rewrite Hm. simpl.
    set (cleaned := toLowerCase (trim (ThreadEditModal.tagDraft m))).
    repeat split.
    + intros [Hne Hnin]. apply isEmpty_false in Hne. apply includes_not_In in Hnin.
      now rewrite Hne, Hnin.
    + intros [He | Hin].
      * apply isEmpty_true in He. now rewrite He.
      * apply includes_In in Hin. rewrite Hin. simpl. now rewrite andb_false_r.
Qed.

Lemma enter_commits_tag_witness :
  TagInput.value
    (TagInput.keystroke false (TagInput.mkState true "Rust " ["go"] "Rust ") "Enter")
  = ["go"; "rust"].
Proof.
  destruct (enter_commits_tag (TagInput.mkState true "Rust " ["go"] "Rust ")
              (ThreadEditModal.mkState ["go"] true "Rust ") eq_refl eq_refl)
    as [[H _] _].
  apply H. split; [discriminate|].
  simpl. intros [H1 | []]. discriminate H1.
Defined.

(** C7. Whatever keys are pressed, the draft buffer of either composer
    only holds characters of [[a-zA-Z0-9_-]]; a printable character
    outside the class, pressed while drafting, leaves the composer as it
    was, and text pasted into [TagInput] is filtered as well.  The
    handlers are total functions: there is no error to raise. *)
Theorem draft_always_valid (disabled : bool) (tags : list string) (keys : list string) :
  validBuffer (TagInput.tagDraft
                 (TagInput.keystrokes disabled (TagInput.initial tags) keys)) = true
  /\ validBuffer (ThreadEditModal.tagDraft
                    (ThreadEditModal.keystrokes (ThreadEditModal.initial tags) keys)) = true
  /\ (forall st key,
         TagInput.isTagging st = true -> String.length key = 1%nat ->
         TagInput.valid key = false ->
         TagInput.keystroke disabled st key = st)
  /\ (forall m key,
         ThreadEditModal.isTagging m = true -> String.length key = 1%nat ->
         TagInput.valid key = false ->
         ThreadEditModal.keystroke m key = m)
  /\ (forall st text,
         validBuffer (TagInput.tagDraft st) = true ->
         validBuffer (TagInput.tagDraft (TagInput.paste disabled st text)) = true).
Proof.
  split; [|split; [|split; [|split]]].
  - now apply TagInput_keystrokes_valid.
  - now apply Modal_keystrokes_valid.
  - intros st key. apply TagInput_invalid_char.
  - intros m key. apply Modal_invalid_char.
  - intros st text. apply TagInput_paste_valid.
Qed.

Lemma draft_always_valid_witness :
  TagInput.keystroke false (TagInput.mkState true "ab" [] "ab") "!"
  = TagInput.mkState true "ab" [] "ab"
  /\ ThreadEditModal.keystroke (ThreadEditModal.mkState [] true "ab") " "
     = ThreadEditModal.mkState [] true "ab".
Proof.
  destruct (draft_always_valid false [] []) as [_ [_ [H1 [H2 _]]]]. split.
  - apply H1; reflexivity.
  - apply H2; reflexivity.
Defined.

(** C8, as the code has it.  On Backspace with an empty Drafting buffer
    [TagInput] leaves Drafting while the composer of [ThreadEditModal]
    keeps Drafting with its empty buffer; on every other keystroke the two
    composers, started in agreeing states, agree again (keys are typed
    with the caret at the end of the field).  Keystrokes are not the only
    input of a composer: pasted text is one as well. *)
Theorem sites_differ_only_on_backspace_at_empty
  (st : TagInput.State) (m : ThreadEditModal.State) (key : string) :
  agree st m -> settled st ->
  (backspaceAtEmpty st key ->
   TagInput.isTagging (TagInput.keystroke false st key) = false
   /\ ThreadEditModal.keystroke m key = m
   /\ ThreadEditModal.isTagging (ThreadEditModal.keystroke m key) = true
   /\ ~ agree (TagInput.keystroke false st key) (ThreadEditModal.keystroke m key)
   /\ settled (TagInput.keystroke false st key))
  /\ (~ backspaceAtEmpty st key ->
      agree (TagInput.keystroke false st key) (ThreadEditModal.keystroke m key)
      /\ settled (TagInput.keystroke false st key)).
Proof.
  intros Hag Hse. split; [|now apply keystroke_agree].
  intros [Ht [Hd ->]].
  destruct st as [tg d v iv], m as [tags tg' d'].
  destruct Hag as [Htg [Hd' Hv]], Hse as [Hiv _].
  cbn [TagInput.isTagging TagInput.tagDraft TagInput.value TagInput.inputValue
       ThreadEditModal.isTagging ThreadEditModal.tagDraft ThreadEditModal.tags]
    in Ht, Hd, Htg, Hd', Hv, Hiv.
  subst tg d tg' d' iv tags.
  rewrite TagInput_backspace_at_empty. cbn.
  repeat split; try reflexivity. intros [H _]. discriminate H.
Qed.

Lemma sites_differ_only_on_backspace_at_empty_witness :
  ~ agree
      (TagInput.keystroke false (TagInput.mkState true EmptyString ["a"] EmptyString)
         "Backspace")
      (ThreadEditModal.keystroke (ThreadEditModal.mkState ["a"] true EmptyString)
         "Backspace")
  /\ agree
       (TagInput.keystroke false (TagInput.mkState true "x" ["a"] "x") "Backspace")
       (ThreadEditModal.keystroke (ThreadEditModal.mkState ["a"] true "x") "Backspace").
Proof.
  split.
  - refine (proj1 (proj2 (proj2 (proj2 (proj1
      (sites_differ_only_on_backspace_at_empty
         (TagInput.mkState true EmptyString ["a"] EmptyString)
         (ThreadEditModal.mkState ["a"] true EmptyString) "Backspace" _ _) _)))));
      repeat split; reflexivity.
  - refine (proj1 (proj2
      (sites_differ_only_on_backspace_at_empty
         (TagInput.mkState true "x" ["a"] "x")
         (ThreadEditModal.mkState ["a"] true "x") "Backspace" _ _) _)).
    + repeat split; reflexivity.
    + repeat split; reflexivity.
    + intros [_ [H _]]. discriminate H.
Defined.

(** C8 as stated fails: Backspace at an empty buffer is not the only
    input on which the sites differ.  Text pasted into the idle field
    starts a draft in [TagInput], whose change handler captures the
    segment after the last [#]; the modal's input has no change handler
    and its composer stays Idle. *)
Lemma paste_reaches_only_TagInput :
  agree (TagInput.initial []) (ThreadEditModal.initial [])
  /\ settled (TagInput.initial [])
  /\ TagInput.paste false (TagInput.initial []) "#a"
     = TagInput.mkState true "a" [] "a"
  /\ ThreadEditModal.paste (ThreadEditModal.initial []) "#a"
     = ThreadEditModal.mkState [] false EmptyString
  /\ ~ agree (TagInput.paste false (TagInput.initial []) "#a")
             (ThreadEditModal.paste (ThreadEditModal.initial []) "#a").
Proof.
  repeat split; try reflexivity. intros [H _]. discriminate H.
Qed.

End ComposerClaims.

(** ** The filter codec *)

Section CodecFacts.
Import Js FilterStateCodec.

Lemma split_no_sep (sep : ascii) (t : string) :
  existsChar (fun c => Ascii.eqb c sep) t = false -> split sep t = [t].
Proof.
  induction t as [|c r IH]; simpl; [reflexivity|].
  intros H. apply orb_false_iff in H as [Hc Hr]. now rewrite Hc, IH.
Qed.

Lemma split_append (sep : ascii) (t r : string) :
  existsChar (fun c => Ascii.eqb c sep) t = false ->
  split sep (t ++ String sep r) = t :: split sep r.
Proof.
  induction t as [|c t' IH]; simpl.
  - intros _. now rewrite Ascii.eqb_refl.
  - intros H. apply orb_false_iff in H as [Hc Hr]. now rewrite Hc, IH.
Qed.

Lemma split_join (tags : list string) :
  tags <> [] ->
  Forall (fun t => existsChar (fun c => Ascii.eqb c ",") t = false) tags ->
  split "," (join "," tags) = tags.
Proof.
  induction tags as [|t rest IH]; [congruence|]. intros _ H.
  inversion H as [|? ? Ht Hrest]; subst.
  destruct rest as [|u rest'].
  - simpl. now apply split_no_sep.
  - change (join "," (t :: u :: rest'))
      with (t ++ String "," (join "," (u :: rest')))%string.
    rewrite split_append by assumption. f_equal. apply IH; [discriminate|assumption].
Qed.

Lemma isEmpty_append (s t : string) :
  isEmpty (s ++ t) = (isEmpty s && isEmpty t)%bool.
Proof. destruct s; reflexivity. Qed.

Lemma join_not_empty (t : string) (rest : list string) :
  isEmpty t = false -> isEmpty (join "," (t :: rest)) = false.
Proof.
  intros H. destruct rest as [|u rest']; [assumption|].
  change (join "," (t :: u :: rest'))
    with (t ++ String "," (join "," (u :: rest')))%string.
  now rewrite isEmpty_append, H.
Qed.

Lemma plainTag_spec (t : string) :
  plainTag t = true <->
  isEmpty t = false /\ existsChar (fun c => Ascii.eqb c ",") t = false /\ trim t = t.
Proof.
  unfold plainTag. rewrite !andb_true_iff, !negb_true_iff, String.eqb_eq. tauto.
Qed.

Lemma map_trim_plain (tags : list string) :
  forallb plainTag tags = true -> List.map trim tags = tags.
Proof.
  induction tags as [|t rest IH]; simpl; [reflexivity|].
  intros H. apply andb_true_iff in H as [Ht Hr].
  apply plainTag_spec in Ht as [_ [_ Ht]]. now rewrite Ht, IH.
Qed.

Lemma plain_no_comma (tags : list string) :
  forallb plainTag tags = true ->
  Forall (fun t => existsChar (fun c => Ascii.eqb c ",") t = false) tags.
Proof.
  induction tags as [|t rest IH]; simpl; [constructor|].
  intros H. apply andb_true_iff in H as [Ht Hr].
  apply plainTag_spec in Ht as [_ [Ht _]]. constructor; auto.
Qed.

(** The parameters of an encoded filter. *)
Lemma encode_q (s : FilterState) : getOrEmpty (encode s) "q" = keyword s.
Proof.
  unfold getOrEmpty, encode. destruct (keyword s) as [|c r] eqn:K; simpl.
  - destruct (tags s); simpl; destruct (isEmpty (categoryId s)); simpl;
      destruct (page s =? 1); reflexivity.
  - reflexivity.
Qed.

Lemma encode_tag (s : FilterState) :
  getOrEmpty (encode s) "tag"
  = match tags s with [] => EmptyString | _ => join "," (tags s) end.
Proof.
  unfold getOrEmpty, encode.
  destruct (isEmpty (keyword s)); destruct (tags s); simpl;
    try reflexivity;
    destruct (isEmpty (categoryId s)); simpl; destruct (page s =? 1); reflexivity.
Qed.

Lemma encode_category (s : FilterState) :
  getOrEmpty (encode s) "category" = categoryId s.
Proof.
  unfold getOrEmpty, encode.
  destruct (isEmpty (keyword s)); destruct (tags s); simpl;
    (destruct (categoryId s) as [|c r] eqn:C; simpl;
     [destruct (page s =? 1); reflexivity | reflexivity]).
Qed.

Lemma decode_trims_tags (search : URLSearchParams.t) :
  Forall (fun t => trim t = t) (tags (decode search)).
Proof.
  unfold decode. cbn [tags].
  destruct (isEmpty (getOrEmpty search "tag")); [constructor|].
  apply Forall_forall. intros t Hin. apply in_map_iff in Hin as [u [<- _]].
  apply trim_idem.
Qed.

End CodecFacts.

Section TagFacts.
Import Js Composer FilterStateCodec.

Lemma isTagChar_plain (c : ascii) :
  TagInput.isTagChar c = true ->
  isWhiteSpace c = false /\ Ascii.eqb c "," = false
  /\ TagInput.isTagChar (lowerChar c) = true.
Proof. destruct c as [[] [] [] [] [] [] [] []]; vm_compute; intuition congruence. Qed.

Lemma trimEnd_no_space (s : string) :
  existsChar isWhiteSpace s = false -> trimEnd s = s.
Proof.
  induction s as [|c r IH]; simpl; [reflexivity|].
  intros H. apply orb_false_iff in H as [Hc Hr]. now rewrite Hc, IH.
Qed.

Lemma trim_no_space (s : string) :
  existsChar isWhiteSpace s = false -> trim s = s.
Proof.
  intros H. unfold trim. rewrite trimStart_id.
  - now apply trimEnd_no_space.
  - destruct s as [|c r]; [reflexivity|]. simpl in *.
    apply orb_false_iff in H as [Hc _]. now rewrite Hc.
Qed.

Lemma validBuffer_no_space (s : string) :
  validBuffer s = true ->
  existsChar isWhiteSpace s = false
  /\ existsChar (fun c => Ascii.eqb c ",") s = false
  /\ validBuffer (toLowerCase s) = true.
Proof.
  unfold validBuffer, toLowerCase. induction s as [|c r IH]; simpl; [auto|].
  intros H. apply andb_true_iff in H as [Hc Hr].
  destruct (isTagChar_plain c Hc) as [H1 [H2 H3]].
  destruct (IH Hr) as [I1 [I2 I3]]. now rewrite H1, H2, H3, I1, I2, I3.
Qed.

Lemma isEmpty_toLowerCase (s : string) : isEmpty (toLowerCase s) = isEmpty s.
Proof. destruct s; reflexivity. Qed.

(** A non-empty valid draft is committed as a plain, lower-case tag. *)
Lemma committed_tag_plain (d : string) :
  validBuffer d = true -> d <> EmptyString ->
  plainTag (toLowerCase (trim d)) = true
  /\ toLowerCase (toLowerCase (trim d)) = toLowerCase (trim d).
Proof.
  intros Hd Hne. split; [|apply toLowerCase_idem].
  destruct (validBuffer_no_space d Hd) as [Hs [_ Hl]].
  rewrite (trim_no_space d Hs).
  destruct (validBuffer_no_space _ Hl) as [Hs' [Hc' _]].
  apply plainTag_spec. rewrite isEmpty_toLowerCase. repeat split.
  - now apply isEmpty_false.
  - assumption.
  - now apply trim_no_space.
Qed.

Lemma NoDup_snoc (l : list string) (x : string) :
  NoDup l -> ~ In x l -> NoDup (l ++ [x]).
Proof.
  induction 1 as [|y l Hy Hl IH]; simpl; intros Hx.
  - constructor; [intros []|constructor].
  - constructor.
    + rewrite in_app_iff. simpl. intros [H | [H | []]]; [now apply Hy|].
      subst. apply Hx. now left.
    + apply IH. intros H. apply Hx. now right.
Qed.

Lemma normalized_snoc (tags : list string) (d : string) :
  normalized tags -> includes tags (toLowerCase d) = false ->
  normalized (tags ++ [toLowerCase d]).
Proof.
  intros [Hnd Hlow] Hin. apply includes_not_In in Hin. split.
  - now apply NoDup_snoc.
  - apply Forall_app. split; [assumption|].
    constructor; [apply toLowerCase_idem | constructor].
Qed.

(** A keystroke of [TagInput] commits nothing, or appends the lowered
    draft, which was not among the tags. *)
Lemma TagInput_keystroke_tags (disabled : bool) (st : TagInput.State) (key : string) :
  TagInput.value (TagInput.keystroke disabled st key) = TagInput.value st
  \/ (TagInput.value (TagInput.keystroke disabled st key)
      = (TagInput.value st ++ [toLowerCase (trim (TagInput.tagDraft st))])%list
      /\ includes (TagInput.value st) (toLowerCase (trim (TagInput.tagDraft st))) = false).
Proof.
  unfold TagInput.keystroke, TagInput.handleKeyDown.
  destruct disabled; [now left|].
  destruct (TagInput.isTagging st) eqn:T.
  - destruct (String.eqb key "Enter").
    + cbn [TagInput.value].
      destruct (isEmpty (toLowerCase (trim (TagInput.tagDraft st)))); simpl;
        [now left|].
      destruct (includes (TagInput.value st)
                  (toLowerCase (trim (TagInput.tagDraft st)))) eqn:I; simpl;
        [now left | now right].
    + left. unfold TagInput.edit, TagInput.handleInputChange.
      repeat match goal with
             | |- context [if ?b then _ else _] => destruct b
             end; reflexivity.
  - left. unfold TagInput.edit, TagInput.handleInputChange. simpl. rewrite T.
    repeat match goal with
           | |- context [if ?b then _ else _] => destruct b
           end; reflexivity.
Qed.

Lemma Modal_keystroke_tags (m : ThreadEditModal.State) (key : string) :
  ThreadEditModal.tags (ThreadEditModal.keystroke m key) = ThreadEditModal.tags m
  \/ (ThreadEditModal.tags (ThreadEditModal.keystroke m key)
      = (ThreadEditModal.tags m ++ [toLowerCase (trim (ThreadEditModal.tagDraft m))])%list
      /\ includes (ThreadEditModal.tags m)
           (toLowerCase (trim (ThreadEditModal.tagDraft m))) = false).
Proof.
  unfold ThreadEditModal.keystroke, ThreadEditModal.onKeyDown.
  destruct (String.eqb key "#"); [destruct (ThreadEditModal.isTagging m); now left|].
  destruct (ThreadEditModal.isTagging m); [|now left].
  destruct (String.eqb key "Enter").
  - cbn [fst ThreadEditModal.tags].
    destruct (isEmpty (toLowerCase (trim (ThreadEditModal.tagDraft m)))); simpl;
      [now left|].
    destruct (includes (ThreadEditModal.tags m)
                (toLowerCase (trim (ThreadEditModal.tagDraft m)))) eqn:I; simpl;
      [now left | now right].
  - left.
    repeat match goal with
           | |- context [if ?b then _ else _] => destruct b
           end; reflexivity.
Qed.

End TagFacts.

Section CodecClaims.
Import Js Composer FilterStateCodec.

(** C2, as the code has it.  A filter on page 1 whose tags are plain
    (not empty, no comma inside, no white space around), whatever its
    keyword and category, is read back unchanged from the query string it
    is encoded to, and the filter of all defaults is encoded to the empty
    query string.  Every tag a composer commits from a valid draft is
    plain. *)
Theorem decode_encode_roundtrip :
  (forall s : FilterState,
      page s = 1 -> forallb plainTag (tags s) = true -> decode (encode s) = s)
  /\ encode (mkFilterState EmptyString [] EmptyString 1) = []
  /\ (forall d : string,
        validBuffer d = true -> d <> EmptyString ->
        plainTag (toLowerCase (trim d)) = true).
Proof.
  split; [|split; [reflexivity|]].
  - intros s Hp Ht. unfold decode.
    rewrite encode_q, encode_tag, encode_category.
    destruct s as [k ts c p]. cbn [keyword tags categoryId page] in *. subst p.
    f_equal. destruct ts as [|t rest]; [reflexivity|].
    assert (He : isEmpty t = false).
    { simpl in Ht. apply andb_true_iff in Ht as [Ht _].
      now apply plainTag_spec in Ht as [Ht _]. }
    rewrite (join_not_empty t rest He).
    rewrite split_join;
      [now apply map_trim_plain | discriminate | now apply plain_no_comma].
  - intros d Hd Hne. now apply committed_tag_plain.
Qed.

Lemma decode_encode_roundtrip_witness :
  decode (encode (mkFilterState "exam" ["cs101"] "3" 1))
  = mkFilterState "exam" ["cs101"] "3" 1
  /\ encode (mkFilterState "exam" ["cs101"] "3" 1)
     = [("q", "exam"); ("tag", "cs101"); ("category", "3")]
  /\ plainTag (toLowerCase (trim "CS101")) = true.
Proof.
  destruct decode_encode_roundtrip as [H1 [_ H2]]. split; [|split].
  - apply (H1 (mkFilterState "exam" ["cs101"] "3" 1)); reflexivity.
  - reflexivity.
  - apply (H2 "CS101"); [reflexivity | discriminate].
Defined.

(** C2 as stated fails: the page is written by [encode] but never read
    back, so a filter on page 2, with no tags and an empty keyword, does
    not survive the round trip; no query string at all decodes to it. *)
Lemma page_lost_in_roundtrip :
  let s := mkFilterState EmptyString [] EmptyString 2 in
  1 <= page s /\ normalized (tags s) /\ trim (keyword s) = keyword s
  /\ encode s = [("page", "2")]
  /\ decode (encode s) = mkFilterState EmptyString [] EmptyString 1
  /\ decode (encode s) <> s
  /\ (forall search, decode search <> s).
Proof.
  cbn. repeat split; try reflexivity; try lia; try constructor;
    try discriminate.
Qed.

(** C3, as the code has it.  Decoding is a total function.  A missing
    [q], [tag] or [category] gives the empty keyword, no tags and no
    category; the page is 1 whatever the query string holds, so also for
    a missing or malformed [page]; a non-empty [tag] parameter is split
    at its commas and every entry is trimmed, empty entries staying in
    the list: ["a, ,b"] decodes to the tags [a], [''], [b]. *)
Theorem decode_total (search : URLSearchParams.t) :
  (URLSearchParams.get search "q" = None -> keyword (decode search) = EmptyString)
  /\ (URLSearchParams.get search "tag" = None -> tags (decode search) = [])
  /\ (URLSearchParams.get search "category" = None ->
      categoryId (decode search) = EmptyString)
  /\ page (decode search) = 1
  /\ (forall tagParam,
        URLSearchParams.get search "tag" = Some tagParam ->
        tagParam <> EmptyString ->
        tags (decode search) = List.map trim (split "," tagParam))
  /\ Forall (fun t => trim t = t) (tags (decode search))
  /\ decode [] = mkFilterState EmptyString [] EmptyString 1
  /\ decode [("page", "abc")] = mkFilterState EmptyString [] EmptyString 1
  /\ tags (decode [("tag", "a, ,b")]) = ["a"; EmptyString; "b"].
Proof.
  unfold decode, getOrEmpty. cbn [keyword tags categoryId page].
  repeat split.
  - now intros ->.
  - now intros ->.
  - now intros ->.
  - intros tagParam -> Hne. apply isEmpty_false in Hne. now rewrite Hne.
  - apply (decode_trims_tags search).
Qed.

Lemma decode_total_witness :
  tags (decode [("q", "exam"); ("tag", " x ,y")]) = List.map trim (split "," " x ,y")
  /\ categoryId (decode [("q", "exam"); ("tag", " x ,y")]) = EmptyString.
Proof.
  destruct (decode_total [("q", "exam"); ("tag", " x ,y")])
    as [_ [_ [Hc [_ [Ht _]]]]].
  split.
  - apply (Ht " x ,y"); [reflexivity | discriminate].
  - apply Hc. reflexivity.
Defined.

(** C3 as stated fails: empty entries of the [tag] parameter are not
    dropped.  ["a, ,b"] decodes to a list that holds the empty tag, which
    is not the set of [a] and [b]. *)
Lemma empty_tag_entries_kept :
  tags (decode [("tag", "a, ,b")]) = ["a"; EmptyString; "b"]
  /\ ~ sameSet (tags (decode [("tag", "a, ,b")])) ["a"; "b"].
Proof.
  split; [reflexivity|]. intros H.
  destruct (proj1 (H EmptyString)) as [E | [E | []]]; try discriminate E.
  cbn. auto.
Qed.

(** C4, as the code has it.  Decoding gives page 1 and trimmed tag
    entries, and every keystroke of either composer keeps a duplicate-free
    lower-case tag list duplicate-free and lower-case.  Decoding itself
    neither lowers nor deduplicates the tags ([tag=A,A] decodes to [A],
    [A]) and keeps the keyword as it stands in the URL, untrimmed. *)
Theorem invariant_by_operation :
  (forall search,
      1 <= page (decode search)
      /\ Forall (fun t => trim t = t) (tags (decode search)))
  /\ (forall disabled st key,
         normalized (TagInput.value st) ->
         normalized (TagInput.value (TagInput.keystroke disabled st key)))
  /\ (forall m key,
         normalized (ThreadEditModal.tags m) ->
         normalized (ThreadEditModal.tags (ThreadEditModal.keystroke m key)))
  /\ tags (decode [("tag", "A,A")]) = ["A"; "A"]
  /\ keyword (decode [("q", " x ")]) = " x ".
Proof.
  split; [|split; [|split; [|split; reflexivity]]].
  - intros search. split; [cbn; lia | apply decode_trims_tags].
  - intros disabled st key Hn.
    destruct (TagInput_keystroke_tags disabled st key) as [-> | [-> Hin]];
      [assumption | now apply normalized_snoc].
  - intros m key Hn.
    destruct (Modal_keystroke_tags m key) as [-> | [-> Hin]];
      [assumption | now apply normalized_snoc].
Qed.

Lemma invariant_by_operation_witness :
  normalized
    (TagInput.value
       (TagInput.keystroke false (TagInput.mkState true "Rust" ["go"] "Rust") "Enter"))
  /\ normalized
       (ThreadEditModal.tags
          (ThreadEditModal.keystroke (ThreadEditModal.mkState ["go"] true "Go") "Enter")).
Proof.
  destruct invariant_by_operation as [_ [H1 [H2 _]]].
  assert (Hgo : normalized ["go"]).
  { split; [constructor; [intros []|constructor] | constructor; [reflexivity|constructor]]. }
  split.
  - apply (H1 false (TagInput.mkState true "Rust" ["go"] "Rust") "Enter"). exact Hgo.
  - apply (H2 (ThreadEditModal.mkState ["go"] true "Go") "Enter"). exact Hgo.
Defined.

(** C4 as stated fails: the tags decoded from [?tag=A,A] are neither
    lower-case nor free of duplicates. *)
Lemma decoded_tags_not_normalized :
  tags (decode [("tag", "A,A")]) = ["A"; "A"]
  /\ ~ NoDup (tags (decode [("tag", "A,A")]))
  /\ ~ Forall (fun t => toLowerCase t = t) (tags (decode [("tag", "A,A")]))
  /\ ~ normalized (tags (decode [("tag", "A,A")])).
Proof.
  assert (Hd : ~ NoDup ["A"; "A"]).
  { intros H. inversion H as [|? ? Hn _]; subst. apply Hn. now left. }
  repeat split; try assumption.
  - intros H. inversion H as [|? ? Hl _]; subst. discriminate Hl.
  - intros [H _]. now apply Hd.
Qed.

End CodecClaims.

(** ** Discovery *)

Section DiscoveryFacts.
Import Js ThreadsListPage.

Variable te : string.

Lemma nth_error_snoc {A : Type} (l : list A) (x : A) :
  nth_error (l ++ [x]) (List.length l) = Some x.
Proof. induction l as [|y l IH]; simpl; [reflexivity | assumption]. Qed.

Lemma nth_error_replace_other {A : Type} (l : list A) (n m : nat) (x : A) :
  n <> m -> nth_error (replace n x l) m = nth_error l m.
Proof.
  revert n m. induction l as [|y l IH]; intros [|n] [|m] H; simpl;
    try reflexivity; try congruence.
  apply IH. congruence.
Qed.

Lemma resume_commit (st : State) (p : Pending) (r : Response)
  (results totalThreads : JsVal) (targetPage : Z) (searching : bool) :
  body te p r = Return (Commit results totalThreads targetPage searching) ->
  resume te st p r = (commit results totalThreads targetPage searching st, None).
Proof. intros H. unfold resume. now rewrite H. Qed.

Lemma resume_throw (st : State) (p : Pending) (r : Response) (m : string) :
  body te p r = Throw m -> resume te st p r = (catchOf p m st, None).
Proof. intros H. unfold resume. now rewrite H. Qed.

Lemma catchOf_keeps_page (p : Pending) (m : string) (st : State) :
  resultPage (catchOf p m st) = resultPage st
  /\ error (catchOf p m st) <> None
  /\ loading (catchOf p m st) = false.
Proof. destruct p; cbn; repeat split; discriminate. Qed.

Lemma nth_error_replace_same {A : Type} (l : list A) (n : nat) (x : A) :
  (n < List.length l)%nat -> nth_error (replace n x l) n = Some x.
Proof.
  revert n. induction l as [|y l IH]; intros [|n] H; simpl in *;
    try lia; [reflexivity|]. apply IH. lia.
Qed.

Lemma arrive_commit_eq (w : World) (n : nat) (p : Pending) (r : Response)
  (results totalThreads : JsVal) (targetPage : Z) (searching : bool) :
  nth_error (waiting w) n = Some (Some p) ->
  body te p r = Return (Commit results totalThreads targetPage searching) ->
  step te w (Arrive n r)
  = mkWorld (commit results totalThreads targetPage searching (ui w))
      (replace n None (waiting w)).
Proof.
  intros Hn Hb. cbn [step]. now rewrite Hn, (resume_commit _ _ _ _ _ _ _ Hb).
Qed.

(** The arrival of a response after which the call sends a further
    request. *)
Lemma arrive_ask (w : World) (n : nat) (p : Pending) (r : Response)
  (request : Request) (continuation : Pending) :
  nth_error (waiting w) n = Some (Some p) ->
  body te p r = Return (Ask request continuation) ->
  step te w (Arrive n r)
  = mkWorld (ui w) (replace n (Some continuation) (waiting w)).
Proof.
  intros Hn Hb. cbn [step]. rewrite Hn. unfold resume. now rewrite Hb.
Qed.

(** The arrival of a response that makes its call commit. *)
Lemma arrive_commit (w : World) (n : nat) (p : Pending) (r : Response)
  (results totalThreads : JsVal) (targetPage : Z) (searching : bool) :
  nth_error (waiting w) n = Some (Some p) ->
  body te p r = Return (Commit results totalThreads targetPage searching) ->
  resultPage (ui (step te w (Arrive n r))) = (results, totalThreads, targetPage)
  /\ waiting (step te w (Arrive n r)) = replace n None (waiting w).
Proof.
  intros Hn Hb. cbn [step]. rewrite Hn, (resume_commit _ _ _ _ _ _ _ Hb).
  split; reflexivity.
Qed.

Lemma waiting_issue2 (w : World) (c1 c2 : Request * Pending) :
  let n := List.length (waiting w) in
  let l := waiting (issue (issue w c1) c2) in
  nth_error l n = Some (Some (snd c1)) /\ nth_error l (S n) = Some (Some (snd c2)).
Proof.
  intros n l. subst n l. unfold issue. cbn [waiting ui]. split.
  - rewrite nth_error_app1 by (rewrite length_app; simpl; lia).
    apply nth_error_snoc.
  - replace (S (List.length (waiting w)))
      with (List.length (waiting w ++ [Some (snd c1)]))
      by (rewrite length_app; simpl; lia).
    apply nth_error_snoc.
Qed.

(** Two overlapping calls whose responses both commit: each arrival
    replaces the visible page, in whichever order the responses come. *)
Lemma overlapping_commits (w : World) (c1 c2 : Request * Pending) (r1 r2 : Response)
  (rs1 tot1 rs2 tot2 : JsVal) (pg1 pg2 : Z) (s1 s2 : bool) :
  body te (snd c1) r1 = Return (Commit rs1 tot1 pg1 s1) ->
  body te (snd c2) r2 = Return (Commit rs2 tot2 pg2 s2) ->
  let n := List.length (waiting w) in
  let w2 := issue (issue w c1) c2 in
  resultPage (ui (step te w2 (Arrive (S n) r2))) = (rs2, tot2, pg2)
  /\ resultPage (ui (step te (step te w2 (Arrive (S n) r2)) (Arrive n r1)))
     = (rs1, tot1, pg1)
  /\ resultPage (ui (step te (step te w2 (Arrive n r1)) (Arrive (S n) r2)))
     = (rs2, tot2, pg2).
Proof.
  intros H1 H2 n w2. destruct (waiting_issue2 w c1 c2) as [N1 N2].
  fold n in N1, N2. fold w2 in N1, N2.
  destruct (arrive_commit w2 (S n) _ r2 _ _ _ _ N2 H2) as [P2 W2].
  destruct (arrive_commit w2 n _ r1 _ _ _ _ N1 H1) as [P1 W1].
  split; [assumption|]. split.
  - apply (arrive_commit _ n (snd c1) r1 rs1 tot1 pg1 s1); [|assumption].
    rewrite W2, nth_error_replace_other by lia. assumption.
  - apply (arrive_commit _ (S n) (snd c2) r2 rs2 tot2 pg2 s2); [|assumption].
    rewrite W1, nth_error_replace_other by lia. assumption.
Qed.

End DiscoveryFacts.

Section SearchFacts.
Import Js ThreadsListPage.

Variable te : string.

Lemma getProp_fieldOf (v : JsVal) (k k' : string) (x : JsVal) :
  getProp v k = Some x -> getProp v k' = Some (fieldOf v k').
Proof. destruct v; simpl; intros H; try discriminate; reflexivity. Qed.

Lemma commitSearch_ok (res : JsVal) (k : string) (x : JsVal)
  (searchResults : list JsVal) (targetPage : Z) :
  getProp res k = Some x ->
  commitSearch te res searchResults targetPage
  = Return (Commit (JArr searchResults)
              (orElse (fieldOf res "total_threads") (JNum 0)) targetPage true).
Proof.
  intros H. unfold commitSearch, prop.
  now rewrite (getProp_fieldOf res k "total_threads" x H).
Qed.

Lemma ids_nil (hits : list JsVal) :
  List.map (fun t => fieldOf t "id") hits = [] <-> hits = [].
Proof. destruct hits; simpl; split; congruence. Qed.

(** [doSearchWithFilters] after a search response with an array of
    threads. *)
Lemma searchBody_ok (res : JsVal) (ts hits : list JsVal)
  (tagsToUse : list string) (categoryToUse : string) (targetPage : Z) :
  getProp res "threads" = Some (JArr ts) ->
  mapItems (toSummary te) ts = Return hits ->
  searchBody te (Reply true res) tagsToUse categoryToUse targetPage
  = if ((negb (isEmpty (trim categoryToUse)) || negb (isNil tagsToUse))
        && negb (isNil hits))%bool
    then Return (Ask (GetThreads
                        (filterParams (List.map (fun t => fieldOf t "id") hits)
                           tagsToUse categoryToUse))
                     (AwaitFilter res hits targetPage))
    else commitSearch te res hits targetPage.
Proof.
  intros Ht Hm. unfold searchBody, searchApi, prop. cbn [negb bind].
  rewrite Ht. cbn [bind arrayMap]. rewrite Hm. cbn [bind].
  destruct (negb (isEmpty (trim categoryToUse)) || negb (isNil tagsToUse))%bool;
    destruct hits; reflexivity.
Qed.

Lemma filterBody_ok (res : JsVal) (hits : list JsVal) (targetPage : Z)
  (filterData rs : JsVal) (fs items : list JsVal) :
  getProp filterData "results" = Some rs ->
  nullish rs filterData = JArr fs ->
  mapItems (toSummary te) fs = Return items ->
  filterBody te (Reply true filterData) res hits targetPage
  = commitSearch te res items targetPage.
Proof.
  intros Hr Hn Hm. unfold filterBody, prop. rewrite Hr. cbn [bind].
  rewrite Hn. cbn [arrayMap]. rewrite Hm. reflexivity.
Qed.

Lemma searchQuery_params (keyword : string) (targetPage : Z) :
  let query := searchQuery keyword targetPage in
  URLSearchParams.get query "q" = Some keyword
  /\ URLSearchParams.get query "type" = Some "threads"
  /\ URLSearchParams.get query "sort" = Some "relevance"
  /\ URLSearchParams.get query "tag" = None
  /\ URLSearchParams.get query "category" = None
  /\ URLSearchParams.get query "ids" = None.
Proof.
  unfold searchQuery. destruct (targetPage =? 0); cbn; repeat split; reflexivity.
Qed.

Lemma filterParams_params (threadIds : list JsVal) (tagsToUse : list string)
  (categoryToUse : string) :
  let params := filterParams threadIds tagsToUse categoryToUse in
  URLSearchParams.get params "ids" = Some (toString (JArr threadIds))
  /\ URLSearchParams.get params "tag"
     = (if isNil tagsToUse then None else Some (join "," tagsToUse))
  /\ URLSearchParams.get params "category"
     = (if isEmpty (trim categoryToUse) then None else Some (trim categoryToUse))
  /\ URLSearchParams.get params "q" = None
  /\ URLSearchParams.get params "page" = None.
Proof.
  unfold filterParams.
  destruct tagsToUse; destruct (isEmpty (trim categoryToUse));
    cbn -[toString join trim]; repeat split; reflexivity.
Qed.

(** The two [map]s keep the order and the number of the items: each item
    gives the summary of its nine fields. *)
Lemma mapItems_toSummary (items summaries : list JsVal) :
  mapItems (toSummary te) items = Return summaries ->
  summaries
  = List.map (fun t => JObj (List.map (fun k => (k, fieldOf t k)) summaryFields))
      items.
Proof.
  revert summaries. induction items as [|t rest IH]; intros summaries H.
  - cbn in H. now injection H as <-.
  - cbn [mapItems] in H.
    destruct (toSummary te t) as [y|m] eqn:Et; cbn [bind] in H; [|discriminate].
    destruct (mapItems (toSummary te) rest) as [ys|m] eqn:Er; cbn [bind] in H;
      [|discriminate].
    injection H as <-. cbn [List.map]. f_equal.
    + destruct t; cbn in Et; try discriminate; now injection Et as <-.
    + now apply IH.
Qed.

(** The state a commit leaves, cell by cell. *)
Lemma commit_cells (results totalThreads : JsVal) (targetPage : Z) (searching : bool)
  (st : State) :
  let st' := commit results totalThreads targetPage searching st in
  threads st' = results
  /\ total st' = totalThreads
  /\ page st' = targetPage
  /\ isSearching st' = searching
  /\ loading st' = false
  /\ error st' = error st.
Proof. cbn. repeat split. Qed.

(** The state a [catch] block leaves, cell by cell. *)
Lemma catchOf_cells (p : Pending) (m : string) (st : State) :
  let st' := catchOf p m st in
  error st' = Some (match p with
                    | AwaitThreads _ => m
                    | _ => if isEmpty m then "Search failed" else m
                    end)
  /\ threads st' = threads st
  /\ total st' = total st
  /\ page st' = page st
  /\ isSearching st' = isSearching st
  /\ loading st' = false.
Proof. destruct p; cbn; repeat split. Qed.

Lemma errorMessage_shown (e : JsVal) (fallback : string) :
  isEmpty fallback = false ->
  truthy e = false \/ (exists s, e = JStr s) ->
  isEmpty (errorMessage e fallback) = false.
Proof.
  intros Hf [He | [s ->]]; unfold errorMessage.
  - now rewrite He.
  - cbn [truthy toString]. destruct (isEmpty s) eqn:Es; cbn [negb]; assumption.
Qed.

End SearchFacts.

Section DiscoveryClaims.
Import Js ThreadsListPage.

(** C1, as the code has it.  The page keeps no sequence number: a
    response that makes its call commit replaces the visible result page
    when it arrives, whatever was issued or shown before.  With two calls
    R1 then R2 in flight, the page shown after both responses is the one
    of the response that arrived last; when R2's response comes first it
    is shown, and R1's later response takes its place. *)
Theorem last_arrival_is_shown (te : string) (w : World)
  (k1 k2 : string) (t1 t2 : list string) (c1 c2 : string) (p1 p2 : Z)
  (r1 r2 : Response) (rs1 tot1 rs2 tot2 : JsVal) (pg1 pg2 : Z) (s1 s2 : bool) :
  body te (snd (doSearchWithFilters k1 t1 c1 p1)) r1
    = Return (Commit rs1 tot1 pg1 s1) ->
  body te (snd (doSearchWithFilters k2 t2 c2 p2)) r2
    = Return (Commit rs2 tot2 pg2 s2) ->
  let n := List.length (waiting w) in
  let R1 := CallDoSearchWithFilters k1 t1 c1 p1 in
  let R2 := CallDoSearchWithFilters k2 t2 c2 p2 in
  resultPage (ui (run te w [R1; R2; Arrive (S n) r2])) = (rs2, tot2, pg2)
  /\ resultPage (ui (run te w [R1; R2; Arrive (S n) r2; Arrive n r1]))
     = (rs1, tot1, pg1)
  /\ resultPage (ui (run te w [R1; R2; Arrive n r1; Arrive (S n) r2]))
     = (rs2, tot2, pg2).
Proof.
  intros H1 H2 n R1 R2. unfold run. cbn [fold_left].
  change (step te (step te w R1) R2)
    with (issue (issue w (doSearchWithFilters k1 t1 c1 p1))
            (doSearchWithFilters k2 t2 c2 p2)).
  now apply (overlapping_commits te w _ _ r1 r2 rs1 tot1 rs2 tot2 pg1 pg2 s1 s2).
Qed.

Lemma last_arrival_is_shown_witness :
  resultPage
    (ui (run "TypeError" (mkWorld initial [])
           [CallDoSearchWithFilters "" [] "" 1;
            CallDoSearchWithFilters "" ["rust"] "" 1;
            Arrive 1 (Reply true (JArr [JObj [("id", JNum 2)]]));
            Arrive 0 (Reply true (JArr [JObj [("id", JNum 1)]; JObj [("id", JNum 2)]]))]))
  = (JArr [JObj [("id", JNum 1)]; JObj [("id", JNum 2)]], JNum 2, 1).
Proof.
  refine (proj1 (proj2
    (last_arrival_is_shown "TypeError" (mkWorld initial [])
       "" "" [] ["rust"] "" "" 1 1
       (Reply true (JArr [JObj [("id", JNum 1)]; JObj [("id", JNum 2)]]))
       (Reply true (JArr [JObj [("id", JNum 2)]]))
       _ _ _ _ _ _ false false _ _))); reflexivity.
Defined.

(** C1 as stated fails.  R1 lists all threads, R2 lists the threads
    tagged [rust]; R2's response arrives first and is shown; R1's
    response arrives afterwards and replaces it: the page ends on R1's
    result, not on R2's. *)
Lemma stale_response_overwrites :
  let R1 := CallDoSearchWithFilters "" [] "" 1 in
  let R2 := CallDoSearchWithFilters "" ["rust"] "" 1 in
  let result1 := JArr [JObj [("id", JNum 1)]; JObj [("id", JNum 2)]] in
  let result2 := JArr [JObj [("id", JNum 2)]] in
  let w := run "TypeError" (mkWorld initial []) [R1; R2; Arrive 1 (Reply true result2)] in
  let w' := step "TypeError" w (Arrive 0 (Reply true result1)) in
  threads (ui w) = result2
  /\ threads (ui w') = result1
  /\ threads (ui w') <> result2
  /\ waiting w' = [None; None].
Proof. cbn. repeat split; try reflexivity. discriminate. Qed.

(** C5.  For a filter whose keyword is not empty, by the code's test
    [keyword.trim()], the first request is a relevance search for the
    keyword alone.  When the search answers with hits and a tag or a
    category is set, nothing is committed yet: a second request is sent to
    the listing for the ids of the hits, in their order, with the tag and
    category filters, and once it answers the threads of the page are the
    summaries of its results, in their order, in place of the hits.  When
    no tag and no category is set, or the search found nothing, the
    threads of the page are the hits and no second request is sent. *)
Theorem keyword_search_then_filter (te : string) (st : State)
  (keyword : string) (tagsToUse : list string) (categoryToUse : string)
  (targetPage : Z) :
  isEmpty (trim keyword) = false ->
  let filtersSet :=
    (negb (isEmpty (trim categoryToUse)) || negb (isNil tagsToUse))%bool in
  let summary := fun t => JObj (List.map (fun k => (k, fieldOf t k)) summaryFields) in
  doSearchWithFilters keyword tagsToUse categoryToUse targetPage
    = (GetSearch (searchQuery keyword targetPage),
       AwaitSearch tagsToUse categoryToUse targetPage)
  /\ URLSearchParams.get (searchQuery keyword targetPage) "q" = Some keyword
  /\ URLSearchParams.get (searchQuery keyword targetPage) "type" = Some "threads"
  /\ URLSearchParams.get (searchQuery keyword targetPage) "sort" = Some "relevance"
  /\ URLSearchParams.get (searchQuery keyword targetPage) "tag" = None
  /\ URLSearchParams.get (searchQuery keyword targetPage) "category" = None
  /\ URLSearchParams.get (searchQuery keyword targetPage) "ids" = None
  /\ (forall res ts hits,
        getProp res "threads" = Some (JArr ts) ->
        mapItems (toSummary te) ts = Return hits ->
        let threadIds := List.map (fun t => fieldOf t "id") hits in
        let params := filterParams threadIds tagsToUse categoryToUse in
        let totalThreads := orElse (fieldOf res "total_threads") (JNum 0) in
        let answered :=
          resume te st (AwaitSearch tagsToUse categoryToUse targetPage)
            (Reply true res) in
        hits = List.map summary ts
        /\ (threadIds <> [] /\ filtersSet = true ->
            fst answered = st
            /\ snd answered
               = Some (GetThreads params, AwaitFilter res hits targetPage)
            /\ URLSearchParams.get params "ids" = Some (toString (JArr threadIds))
            /\ URLSearchParams.get params "tag"
               = (if isNil tagsToUse then None else Some (join "," tagsToUse))
            /\ URLSearchParams.get params "category"
               = (if isEmpty (trim categoryToUse) then None
                  else Some (trim categoryToUse))
            /\ URLSearchParams.get params "q" = None
            /\ (forall st' filterData rs fs items,
                  getProp filterData "results" = Some rs ->
                  nullish rs filterData = JArr fs ->
                  mapItems (toSummary te) fs = Return items ->
                  let filtered :=
                    resume te st' (AwaitFilter res hits targetPage)
                      (Reply true filterData) in
                  items = List.map summary fs
                  /\ threads (fst filtered) = JArr items
                  /\ total (fst filtered) = totalThreads
                  /\ page (fst filtered) = targetPage
                  /\ isSearching (fst filtered) = true
                  /\ error (fst filtered) = error st'
                  /\ snd filtered = None))
        /\ (threadIds = [] \/ filtersSet = false ->
            threads (fst answered) = JArr hits
            /\ total (fst answered) = totalThreads
            /\ page (fst answered) = targetPage
            /\ isSearching (fst answered) = true
            /\ error (fst answered) = error st
            /\ snd answered = None)).
Proof.
  intros Hk filtersSet summary.
  split; [unfold doSearchWithFilters; now rewrite Hk|].
  destruct (searchQuery_params keyword targetPage) as [Q1 [Q2 [Q3 [Q4 [Q5 Q6]]]]].
  do 6 (split; [assumption|]).
  intros res ts hits Hts Hm threadIds params totalThreads answered.
  split; [exact (mapItems_toSummary te ts hits Hm)|].
  assert (Hbody := searchBody_ok te res ts hits tagsToUse categoryToUse targetPage Hts Hm).
  fold filtersSet in Hbody. split.
  - intros [Hids Hf]. rewrite Hf in Hbody.
    assert (Hh : isNil hits = false)
      by (destruct hits; [now contradiction Hids | reflexivity]).
    rewrite Hh in Hbody. cbn [andb negb] in Hbody.
    assert (Ha : answered = (st, Some (GetThreads params, AwaitFilter res hits targetPage)))
      by (unfold answered, resume; cbn [body]; now rewrite Hbody).
    rewrite Ha. cbn [fst snd].
    do 2 (split; [reflexivity|]).
    destruct (filterParams_params threadIds tagsToUse categoryToUse)
      as [F1 [F2 [F3 [F4 _]]]].
    do 4 (split; [assumption|]).
    intros st' filterData rs fs items Hr Hn Hi.
    split; [exact (mapItems_toSummary te fs items Hi)|].
    assert (Hd : resume te st' (AwaitFilter res hits targetPage) (Reply true filterData)
                 = (commit (JArr items) totalThreads targetPage true st', None)).
    { unfold resume. cbn [body].
      rewrite (filterBody_ok te res hits targetPage filterData rs fs items Hr Hn Hi).
      now rewrite (commitSearch_ok te res "threads" (JArr ts) items targetPage Hts). }
    rewrite Hd. cbn [fst snd].
    destruct (commit_cells (JArr items) totalThreads targetPage true st')
      as [C1 [C2 [C3 [C4 [_ C6]]]]].
    do 5 (split; [assumption|]). reflexivity.
  - intros Hor.
    assert (Hc : (filtersSet && negb (isNil hits))%bool = false).
    { destruct Hor as [Hids | Hf].
      - unfold threadIds in Hids. apply (proj1 (ids_nil hits)) in Hids.
        rewrite Hids.
        apply andb_false_r.
      - now rewrite Hf. }
    assert (Ha : answered = (commit (JArr hits) totalThreads targetPage true st, None)).
    { rewrite Hc in Hbody. unfold answered, resume. cbn [body]. rewrite Hbody.
      now rewrite (commitSearch_ok te res "threads" (JArr ts) hits targetPage Hts). }
    rewrite Ha. cbn [fst snd].
    destruct (commit_cells (JArr hits) totalThreads targetPage true st)
      as [C1 [C2 [C3 [C4 [_ C6]]]]].
    do 5 (split; [assumption|]). reflexivity.
Qed.

Lemma keyword_search_then_filter_witness :
  doSearchWithFilters " exam " ["cs101"] "3" 1
  = (GetSearch [("q", " exam "); ("type", "threads"); ("sort", "relevance");
                ("page", "1"); ("limit", "20")],
     AwaitSearch ["cs101"] "3" 1)
  /\ snd (resume "TypeError" initial (AwaitSearch ["cs101"] "3" 1)
            (Reply true (JObj [("threads", JArr [JObj [("id", JNum 7)];
                                                 JObj [("id", JNum 8)]]);
                               ("total_threads", JNum 2)])))
     = Some (GetThreads [("ids", "7,8"); ("tag", "cs101"); ("category", "3")],
             AwaitFilter
               (JObj [("threads", JArr [JObj [("id", JNum 7)];
                                        JObj [("id", JNum 8)]]);
                      ("total_threads", JNum 2)])
               (List.map
                  (fun t => JObj (List.map (fun k => (k, fieldOf t k)) summaryFields))
                  [JObj [("id", JNum 7)]; JObj [("id", JNum 8)]])
               1)
  /\ threads
       (fst (resume "TypeError" initial
               (AwaitFilter
                  (JObj [("threads", JArr [JObj [("id", JNum 7)];
                                           JObj [("id", JNum 8)]]);
                         ("total_threads", JNum 2)])
                  (List.map
                     (fun t => JObj (List.map (fun k => (k, fieldOf t k)) summaryFields))
                     [JObj [("id", JNum 7)]; JObj [("id", JNum 8)]])
                  1)
               (Reply true (JObj [("results", JArr [JObj [("id", JNum 8)]]);
                                  ("count", JNum 1)]))))
     = JArr (List.map
               (fun t => JObj (List.map (fun k => (k, fieldOf t k)) summaryFields))
               [JObj [("id", JNum 8)]]).
Proof.
  destruct (keyword_search_then_filter "TypeError" initial " exam " ["cs101"] "3" 1)
    as [H1 [_ [_ [_ [_ [_ [_ H2]]]]]]]; [reflexivity|].
  split; [exact H1|].
  destruct (H2 (JObj [("threads", JArr [JObj [("id", JNum 7)]; JObj [("id", JNum 8)]]);
                      ("total_threads", JNum 2)])
              [JObj [("id", JNum 7)]; JObj [("id", JNum 8)]]
              (List.map
                 (fun t => JObj (List.map (fun k => (k, fieldOf t k)) summaryFields))
                 [JObj [("id", JNum 7)]; JObj [("id", JNum 8)]])
              eq_refl eq_refl) as [_ [H3 _]].
  destruct H3 as [_ [H4 [_ [_ [_ [_ H5]]]]]]; [split; [discriminate | reflexivity]|].
  split; [exact H4|].
  destruct (H5 initial
              (JObj [("results", JArr [JObj [("id", JNum 8)]]); ("count", JNum 1)])
              (JArr [JObj [("id", JNum 8)]])
              [JObj [("id", JNum 8)]]
              (List.map
                 (fun t => JObj (List.map (fun k => (k, fieldOf t k)) summaryFields))
                 [JObj [("id", JNum 8)]])
              eq_refl eq_refl eq_refl) as [_ [H6 _]].
  exact H6.
Defined.

(** C9, as the code has it.  Whenever the [try] block of a call throws,
    the [catch] block stores the error's message in the error state (the
    listing calls store it as it is, the search call stores
    ['Search failed'] in place of an empty message), the alert is shown
    for a message that is not empty, the threads, total and page of the
    page stay as they were, loading ends and nothing more is requested.
    The block throws on a rejected [fetch] or an unparsable body of any
    request, on a non-2xx answer to the listing request or to the search
    request (with the [error] of the body, or a fixed text, as the
    message), on a [null] body, on a search body whose [threads] is no
    array and on a post-filter body whose results are no array.  A non-2xx
    answer to the post-filter request is no failure: the search hits are
    committed and the error state is left alone. *)
Theorem failure_keeps_result_page (te : string) (st : State) (p : Pending) :
  (forall r m,
      body te p r = Throw m ->
      let st' := fst (resume te st p r) in
      error st' = Some (match p with
                        | AwaitThreads _ => m
                        | _ => if isEmpty m then "Search failed" else m
                        end)
      /\ alertShown st' = (match p with
                           | AwaitThreads _ => negb (isEmpty m)
                           | _ => true
                           end)
      /\ threads st' = threads st
      /\ total st' = total st
      /\ page st' = page st
      /\ loading st' = false
      /\ snd (resume te st p r) = None)
  /\ (forall message, body te p (Rejected message) = Throw message)
  /\ (forall pg data e,
        getProp data "error" = Some e ->
        body te (AwaitThreads pg) (Reply false data)
        = Throw (errorMessage e "Failed to load threads"))
  /\ (forall tagsToUse categoryToUse pg data e,
        getProp data "error" = Some e ->
        body te (AwaitSearch tagsToUse categoryToUse pg) (Reply false data)
        = Throw (errorMessage e "Search failed"))
  /\ (forall e fallback,
        isEmpty fallback = false ->
        truthy e = false \/ (exists s, e = JStr s) ->
        isEmpty (errorMessage e fallback) = false)
  /\ (forall data,
        getProp data "error" = None ->
        (forall res hits pg, p <> AwaitFilter res hits pg) ->
        body te p (Reply false data) = Throw te)
  /\ body te p (Reply true JNull) = Throw te
  /\ (forall tagsToUse categoryToUse pg data v,
        getProp data "threads" = Some v -> isArray v = false ->
        body te (AwaitSearch tagsToUse categoryToUse pg) (Reply true data) = Throw te)
  /\ (forall res hits pg data v,
        getProp data "results" = Some v -> isArray (nullish v data) = false ->
        body te (AwaitFilter res hits pg) (Reply true data) = Throw te)
  /\ (forall res hits pg data t,
        getProp res "total_threads" = Some t ->
        let silent := resume te st (AwaitFilter res hits pg) (Reply false data) in
        threads (fst silent) = JArr hits
        /\ total (fst silent) = orElse t (JNum 0)
        /\ page (fst silent) = pg
        /\ error (fst silent) = error st
        /\ alertShown (fst silent) = alertShown st
        /\ snd silent = None).
Proof.
  split.
  { intros r m H st'. unfold st'. rewrite (resume_throw te st p r m H).
    cbn [fst snd].
    destruct (catchOf_cells p m st) as [E [T1 [T2 [T3 [_ L]]]]].
    split; [exact E|]. split.
    - unfold alertShown. rewrite E. destruct p; try reflexivity;
        destruct (isEmpty m) eqn:Em; [reflexivity | cbn [negb]; now rewrite Em
                                     | reflexivity | cbn [negb]; now rewrite Em].
    - repeat split; assumption. }
  split; [intros message; destruct p; reflexivity|].
  split; [intros pg data e He; cbn; unfold prop; now rewrite He|].
  split.
  { intros t c pg data e He. cbn. unfold searchBody, searchApi, prop. cbn.
    now rewrite He. }
  split; [exact errorMessage_shown|].
  split.
  { intros data He Hp. destruct p as [pg | t c pg | res hits pg].
    - cbn. unfold prop. now rewrite He.
    - cbn. unfold searchBody, searchApi, prop. cbn. now rewrite He.
    - now contradiction (Hp res hits pg). }
  split; [destruct p; reflexivity|].
  split.
  { intros t c pg data v Hv Ha. cbn. unfold searchBody, searchApi, prop. cbn.
    rewrite Hv. cbn. destruct v; try reflexivity. discriminate Ha. }
  split.
  { intros res hits pg data v Hv Ha. cbn. unfold prop. rewrite Hv. cbn.
    destruct (nullish v data); try reflexivity. discriminate Ha. }
  intros res hits pg data t Ht silent.
  assert (Hs : silent = (commit (JArr hits) (orElse t (JNum 0)) pg true st, None)).
  { unfold silent, resume. cbn [body filterBody]. unfold commitSearch, prop.
    now rewrite Ht. }
  rewrite Hs. cbn [fst snd]. unfold alertShown.
  destruct (commit_cells (JArr hits) (orElse t (JNum 0)) pg true st)
    as [C1 [C2 [C3 [_ [_ C6]]]]].
  rewrite C6. repeat split; assumption.
Qed.

Lemma failure_keeps_result_page_witness :
  let shown := commit (JArr [JObj [("id", JNum 1)]]) (JNum 1) 1 false initial in
  let failed :=
    fst (resume "TypeError" shown (AwaitThreads 2)
           (Reply false (JObj [("error", JStr "Server error")]))) in
  error failed = Some "Server error"
  /\ alertShown failed = true
  /\ threads failed = JArr [JObj [("id", JNum 1)]]
  /\ total failed = JNum 1
  /\ page failed = 1.
Proof.
  intros shown failed.
  destruct (failure_keeps_result_page "TypeError" shown (AwaitThreads 2)) as [H _].
  destruct (H (Reply false (JObj [("error", JStr "Server error")])) "Server error"
              eq_refl) as [H1 [H2 [H3 [H4 [H5 _]]]]].
  split; [exact H1|]. split; [exact H2|]. split; [exact H3|].
  split; [exact H4 | exact H5].
Defined.

(** C9 as stated fails.  A page shows a committed result; a keyword
    search with a tag filter is resolved; the search answers with a hit
    and the post-filter request answers with status 500.  No error is set
    and no alert is shown, and the threads of the page are replaced by the
    search hit. *)
Lemma failed_filter_request_is_silent :
  let previous := commit (JArr [JObj [("id", JNum 1)]]) (JNum 1) 1 false initial in
  let w := run "TypeError" (mkWorld previous [])
             [CallDoSearchWithFilters "exam" ["cs101"] "" 1;
              Arrive 0 (Reply true (JObj [("threads", JArr [JObj [("id", JNum 7)]]);
                                          ("total_threads", JNum 3)]));
              Arrive 0 (Reply false (JObj [("error", JStr "Server error")]))] in
  error (ui w) = None
  /\ alertShown (ui w) = false
  /\ threads (ui w)
     = JArr [JObj (List.map (fun k => (k, fieldOf (JObj [("id", JNum 7)]) k))
                     summaryFields)]
  /\ threads (ui w) <> threads previous
  /\ total (ui w) = JNum 3
  /\ total (ui w) <> total previous
  /\ waiting w = [None].
Proof. vm_compute. repeat split; try reflexivity; discriminate. Qed.

(** C10.  After a keyword search with a tag or a category set whose hits
    went through the post-filter request, the committed total is the
    [total_threads] of the search for the keyword alone, 0 when that
    field is absent or falsy, while the committed threads are those of the
    post-filter answer: the total does not count them and can exceed
    their number. *)
Theorem total_is_search_total :
  (forall (te : string) (w : World) (keyword : string) (tagsToUse : list string)
          (categoryToUse : string) (targetPage : Z)
          (res : JsVal) (ts hits : list JsVal)
          (filterData rs : JsVal) (fs items : list JsVal),
      isEmpty (trim keyword) = false ->
      (negb (isEmpty (trim categoryToUse)) || negb (isNil tagsToUse))%bool = true ->
      getProp res "threads" = Some (JArr ts) ->
      mapItems (toSummary te) ts = Return hits ->
      hits <> [] ->
      getProp filterData "results" = Some rs ->
      nullish rs filterData = JArr fs ->
      mapItems (toSummary te) fs = Return items ->
      let n := List.length (waiting w) in
      let w' := run te w [CallDoSearchWithFilters keyword tagsToUse categoryToUse targetPage;
                          Arrive n (Reply true res);
                          Arrive n (Reply true filterData)] in
      threads (ui w') = JArr items
      /\ total (ui w') = orElse (fieldOf res "total_threads") (JNum 0)
      /\ (truthy (fieldOf res "total_threads") = false -> total (ui w') = JNum 0)
      /\ (truthy (fieldOf res "total_threads") = true ->
          total (ui w') = fieldOf res "total_threads"))
  /\ (let w' := run "TypeError" (mkWorld initial [])
                  [CallDoSearchWithFilters "exam" ["cs101"] "" 1;
                   Arrive 0 (Reply true
                               (JObj [("threads", JArr [JObj [("id", JNum 7)];
                                                        JObj [("id", JNum 8)]]);
                                      ("total_threads", JNum 42)]));
                   Arrive 0 (Reply true
                               (JObj [("results", JArr [JObj [("id", JNum 8)]]);
                                      ("count", JNum 1)]))] in
      total (ui w') = JNum 42
      /\ exists item, threads (ui w') = JArr [item]).
Proof.
  split.
  - intros te w keyword tagsToUse categoryToUse targetPage res ts hits
      filterData rs fs items Hk Hf Hts Hm Hh Hr Hn Hi n w'.
    assert (Htotal : ui w'
              = commit (JArr items) (orElse (fieldOf res "total_threads") (JNum 0))
                  targetPage true (begin (ui w))).
    { subst w'. unfold run. cbn [fold_left].
      set (p := AwaitSearch tagsToUse categoryToUse targetPage).
      assert (Hw1 : step te w (CallDoSearchWithFilters keyword tagsToUse
                                 categoryToUse targetPage)
                    = mkWorld (begin (ui w)) (waiting w ++ [Some p])).
      { cbn [step]. unfold doSearchWithFilters. now rewrite Hk. }
      rewrite Hw1.
      assert (Hh' : isNil hits = false)
        by (destruct hits; [now contradiction Hh | reflexivity]).
      assert (Hb := searchBody_ok te res ts hits tagsToUse categoryToUse
                      targetPage Hts Hm).
      rewrite Hf, Hh' in Hb. cbn [andb negb] in Hb.
      rewrite (arrive_ask te (mkWorld (begin (ui w)) (waiting w ++ [Some p])) n p
                 (Reply true res) _ _ (nth_error_snoc (waiting w) (Some p)) Hb).
      cbn [ui waiting].
      erewrite arrive_commit_eq.
      - reflexivity.
      - cbn [waiting]. apply nth_error_replace_same.
        rewrite length_app. simpl. lia.
      - cbn [body].
        rewrite (filterBody_ok te res hits targetPage filterData rs fs items
                   Hr Hn Hi).
        apply (commitSearch_ok te res "threads" (JArr ts) items targetPage Hts). }
    rewrite Htotal. cbn [commit threads total setLoading setIsSearching setPage
                          setTotal setThreads].
    unfold orElse. repeat split.
    + intros ->. reflexivity.
    + intros ->. reflexivity.
  - vm_compute. split; [reflexivity | eexists; reflexivity].
Qed.

Lemma total_is_search_total_witness :
  total
    (ui (run "TypeError" (mkWorld initial [])
           [CallDoSearchWithFilters "exam" [] "3" 1;
            Arrive 0 (Reply true (JObj [("threads", JArr [JObj [("id", JNum 7)]])]));
            Arrive 0 (Reply true (JArr [JObj [("id", JNum 7)]]))]))
  = JNum 0.
Proof.
  destruct total_is_search_total as [H _].
  refine (proj1 (proj2 (proj2
    (H "TypeError" (mkWorld initial []) "exam" [] "3" 1
       (JObj [("threads", JArr [JObj [("id", JNum 7)]])])
       [JObj [("id", JNum 7)]] _
       (JArr [JObj [("id", JNum 7)]]) JUndefined [JObj [("id", JNum 7)]] _
       eq_refl eq_refl eq_refl eq_refl _ eq_refl eq_refl eq_refl))) eq_refl).
  discriminate.
Defined.

End DiscoveryClaims.

(** ** Colours *)

Section ColorFacts.
Import Js ColorAssigner.

Lemma toUint32_range (x : Z) : 0 <= toUint32 x < 2 ^ 32.
Proof. unfold toUint32. apply Z.mod_pos_bound. reflexivity. Qed.

Lemma hashFrom_range (name : string) :
  forall hash, 0 <= hash < 2 ^ 32 -> 0 <= hashFrom hash name < 2 ^ 32.
Proof.
  induction name as [|c rest IH]; cbn [hashFrom]; intros hash H; [assumption|].
  apply IH, toUint32_range.
Qed.

Lemma hashOf_range (name : string) : 0 <= hashOf name < 2 ^ 32.
Proof. apply hashFrom_range. split; [lia | reflexivity]. Qed.

Lemma pick_defined (colors : list string) (name : string) :
  colors <> [] -> exists c, pick colors name = Some c /\ In c colors.
Proof.
  intros Hne. unfold pick, at_.
  assert (Hlen : 0 < Z.of_nat (List.length colors))
    by (destruct colors; [congruence | simpl; lia]).
  destruct (Z.rem_bound_pos (hashOf name) (Z.of_nat (List.length colors))
              (proj1 (hashOf_range name)) Hlen) as [H0 H1].
  destruct (Z.ltb_spec (Z.rem (hashOf name) (Z.of_nat (List.length colors))) 0);
    [lia|].
  destruct (nth_error colors
              (Z.to_nat (Z.rem (hashOf name) (Z.of_nat (List.length colors)))))
    as [c|] eqn:E.
  - exists c. split; [reflexivity|]. eapply nth_error_In. exact E.
  - apply nth_error_None in E. lia.
Qed.

Lemma polynomial_mod (name : string) :
  forall a, polynomial a name mod 2 ^ 32 = polynomial (a mod 2 ^ 32) name mod 2 ^ 32.
Proof.
  induction name as [|c rest IH]; cbn [polynomial]; intros a.
  - now rewrite Z.mod_mod.
  - rewrite (IH (a * 31 + Z.of_nat (code c))),
      (IH (a mod 2 ^ 32 * 31 + Z.of_nat (code c))).
    f_equal. f_equal.
    assert (Hm : 2 ^ 32 <> 0) by (compute; discriminate).
    symmetry. rewrite <- Z.add_mod_idemp_l by exact Hm.
    rewrite Z.mul_mod_idemp_l by exact Hm.
    now rewrite Z.add_mod_idemp_l by exact Hm.
Qed.

Lemma hashFrom_polynomial (name : string) :
  forall hash, hashFrom hash name mod 2 ^ 32 = polynomial hash name mod 2 ^ 32.
Proof.
  induction name as [|c rest IH]; cbn [polynomial hashFrom]; intros hash;
    [reflexivity|].
  rewrite IH. unfold toUint32. now rewrite <- polynomial_mod.
Qed.

Lemma hashFrom_append (s t : string) :
  forall hash, hashFrom hash (s ++ t) = hashFrom (hashFrom hash s) t.
Proof. induction s as [|c r IH]; simpl; intros hash; [reflexivity | apply IH]. Qed.

(** X1.  [colorForTag] and [getCategoryColor] never give [undefined]:
    the hash stays within 32 bits, the index within the palette, and every
    name, the empty one too, gets one of the colours of its palette. *)
Theorem color_always_defined (name : string) :
  0 <= hashOf name < 2 ^ 32
  /\ (exists c, colorForTag name = Some c /\ In c tagColors)
  /\ (exists c, getCategoryColor name = Some c /\ In c categoryColors).
Proof.
  split; [apply hashOf_range|]. split; apply pick_defined; discriminate.
Qed.

(** X2.  Wrapping to 32 bits at every character loses nothing: the hash
    of a name is the polynomial in 31 of its character codes modulo 2^32,
    and the hash of a concatenation continues the hash of its first
    part. *)
Theorem hash_is_polynomial (s t : string) :
  hashOf s = polynomial 0 s mod 2 ^ 32
  /\ hashOf (s ++ t) = hashFrom (hashOf s) t.
Proof.
  split.
  - unfold hashOf. rewrite <- hashFrom_polynomial.
    symmetry. apply Z.mod_small. apply hashOf_range.
  - apply hashFrom_append.
Qed.

End ColorFacts.

(** ** Typing into the composers *)

Section TypingFacts.
Import Js Composer ComposerInputs.

Lemma TagInput_idle_key (d : string) (v : list string) (key : string) :
  key <> "#" ->
  TagInput.keystroke false (TagInput.mkState false d v EmptyString) key
  = TagInput.mkState false d v EmptyString.
Proof.
  intros Hhash.
  destruct (String.eqb_spec key "Enter") as [-> | Henter]; [reflexivity|].
  destruct (String.eqb_spec key "Escape") as [-> | Hesc]; [reflexivity|].
  destruct (String.eqb_spec key "Backspace") as [-> | Hbs]; [reflexivity|].
  destruct (Nat.eq_dec (String.length key) 1) as [Hl | Hl].
  - apply length_one in Hl as [c ->]. now apply TagInput_idle_char.
  - now apply TagInput_other_key.
Qed.

Lemma Modal_idle_key (m : ThreadEditModal.State) (key : string) :
  key <> "#" -> ThreadEditModal.isTagging m = false ->
  ThreadEditModal.keystroke m key = m.
Proof.
  intros Hhash Ht. apply String.eqb_neq in Hhash.
  unfold ThreadEditModal.keystroke, ThreadEditModal.onKeyDown.
  now rewrite Hhash, Ht.
Qed.

Lemma TagInput_idle_keys (d : string) (v : list string) (keys : list string) :
  ~ In "#" keys ->
  TagInput.keystrokes false (TagInput.mkState false d v EmptyString) keys
  = TagInput.mkState false d v EmptyString.
Proof.
  unfold TagInput.keystrokes.
  induction keys as [|k rest IH]; cbn [fold_left]; intros H; [reflexivity|].
  rewrite TagInput_idle_key by (intros ->; apply H; now left).
  apply IH. intros Hin. apply H. now right.
Qed.

Lemma Modal_idle_keys (keys : list string) :
  forall m, ~ In "#" keys -> ThreadEditModal.isTagging m = false ->
  ThreadEditModal.keystrokes m keys = m.
Proof.
  unfold ThreadEditModal.keystrokes.
  induction keys as [|k rest IH]; cbn [fold_left]; intros m H Ht; [reflexivity|].
  rewrite Modal_idle_key; [|intros ->; apply H; now left|assumption].
  apply IH; [|assumption]. intros Hin. apply H. now right.
Qed.

Lemma TagInput_idle_paste (d : string) (v : list string) (text : string) :
  existsChar (Ascii.eqb "#") text = false ->
  TagInput.paste false (TagInput.mkState false d v EmptyString) text
  = TagInput.mkState false d v EmptyString.
Proof.
  intros H. unfold TagInput.paste, TagInput.edit. cbn [TagInput.inputValue].
  change (EmptyString ++ text)%string with text.
  destruct (String.eqb_spec text EmptyString) as [-> | Hne]; [reflexivity|].
  unfold TagInput.handleInputChange. cbn -[existsChar]. rewrite H.
  apply isEmpty_false in Hne. now rewrite Hne.
Qed.

(** X3.  No composer starts a draft without a [#]: keys other than [#],
    pressed in the Idle state, and text without [#] pasted into [TagInput],
    leave the composer as it was. *)
Theorem no_draft_without_hash (tags : list string) (keys : list string) (text : string) :
  ~ In "#" keys ->
  existsChar (Ascii.eqb "#") text = false ->
  TagInput.keystrokes false (TagInput.initial tags) keys = TagInput.initial tags
  /\ ThreadEditModal.keystrokes (ThreadEditModal.initial tags) keys
     = ThreadEditModal.initial tags
  /\ TagInput.paste false (TagInput.initial tags) text = TagInput.initial tags.
Proof.
  intros Hk Ht. split; [|split].
  - now apply TagInput_idle_keys.
  - now apply Modal_idle_keys.
  - now apply TagInput_idle_paste.
Qed.

Lemma no_draft_without_hash_witness :
  TagInput.keystrokes false (TagInput.initial ["go"]) ["r"; "Enter"; "Backspace"; "Tab"]
  = TagInput.initial ["go"]
  /\ TagInput.paste false (TagInput.initial ["go"]) "rust lang" = TagInput.initial ["go"].
Proof.
  destruct (no_draft_without_hash ["go"] ["r"; "Enter"; "Backspace"; "Tab"] "rust lang")
    as [H1 [_ H3]].
  - simpl. intros [H | [H | [H | [H | []]]]]; discriminate H.
  - reflexivity.
  - split; assumption.
Defined.

Lemma append_assoc (a b c : string) : ((a ++ b) ++ c = a ++ (b ++ c))%string.
Proof. induction a as [|x a IH]; simpl; [reflexivity|]. now rewrite IH. Qed.

Lemma append_nil_r (a : string) : (a ++ EmptyString)%string = a.
Proof. induction a as [|x a IH]; simpl; [reflexivity|]. now rewrite IH. Qed.

Lemma validChars_cons (c : ascii) (text : string) :
  TagInput.validChars (String c text)
  = if TagInput.isTagChar c then String c (TagInput.validChars text)
    else TagInput.validChars text.
Proof. reflexivity. Qed.

(** Typing a text into a draft of [TagInput]. *)
Lemma TagInput_typing (v : list string) (text : string) :
  forall d, validBuffer d = true ->
  TagInput.keystrokes false (TagInput.mkState true d v d) (typed text)
  = TagInput.mkState true (d ++ TagInput.validChars text) v
      (d ++ TagInput.validChars text).
Proof.
  unfold TagInput.keystrokes.
  induction text as [|c rest IH]; intros d Hd.
  - cbn. now rewrite append_nil_r.
  - cbn [typed fold_left]. rewrite validChars_cons.
    destruct (TagInput.isTagChar c) eqn:V.
    + rewrite TagInput_valid_char by assumption.
      rewrite IH by now apply validBuffer_append_key.
      now rewrite append_assoc.
    + rewrite TagInput_invalid_char;
        [now apply IH | reflexivity | reflexivity | now rewrite valid_char].
Qed.

(** Typing a text into a draft of the modal. *)
Lemma Modal_typing (tags : list string) (text : string) :
  forall d,
  ThreadEditModal.keystrokes (ThreadEditModal.mkState tags true d) (typed text)
  = ThreadEditModal.mkState tags true (d ++ TagInput.validChars text).
Proof.
  unfold ThreadEditModal.keystrokes.
  induction text as [|c rest IH]; intros d.
  - cbn. now rewrite append_nil_r.
  - cbn [typed fold_left]. rewrite validChars_cons.
    destruct (String.eqb_spec (String c EmptyString) "#") as [E | Hhash].
    + rewrite E. injection E as ->. cbn -[TagInput.validChars]. apply IH.
    + rewrite Modal_char by assumption. cbn [ThreadEditModal.isTagging andb
        ThreadEditModal.tags ThreadEditModal.tagDraft].
      destruct (TagInput.isTagChar c); [|apply IH].
      rewrite IH. now rewrite append_assoc.
Qed.

(** X4.  Whatever text is typed while drafting, character by character,
    the draft grows by exactly its characters of [[a-zA-Z0-9_-]], in
    order; the others, [#] among them, leave no trace.  Holds in
    [TagInput] and in [ThreadEditModal]. *)
Theorem typing_keeps_valid_characters
  (d : string) (tags : list string) (text : string) :
  validBuffer d = true ->
  TagInput.keystrokes false (TagInput.mkState true d tags d) (typed text)
  = TagInput.mkState true (d ++ TagInput.validChars text) tags
      (d ++ TagInput.validChars text)
  /\ ThreadEditModal.keystrokes (ThreadEditModal.mkState tags true d) (typed text)
     = ThreadEditModal.mkState tags true (d ++ TagInput.validChars text).
Proof.
  intros Hd. split; [now apply TagInput_typing | apply Modal_typing].
Qed.

Lemma typing_keeps_valid_characters_witness :
  TagInput.keystrokes false (TagInput.mkState true "c" [] "c") (typed "s 1#0_1!")
  = TagInput.mkState true "cs10_1" [] "cs10_1".
Proof.
  apply (proj1 (typing_keeps_valid_characters "c" [] "s 1#0_1!" eq_refl)).
Defined.

Lemma keystrokes_app_TagInput (disabled : bool) (st : TagInput.State)
  (a b : list string) :
  TagInput.keystrokes disabled st (a ++ b)
  = TagInput.keystrokes disabled (TagInput.keystrokes disabled st a) b.
Proof. unfold TagInput.keystrokes. apply fold_left_app. Qed.

Lemma keystrokes_app_Modal (m : ThreadEditModal.State) (a b : list string) :
  ThreadEditModal.keystrokes m (a ++ b)
  = ThreadEditModal.keystrokes (ThreadEditModal.keystrokes m a) b.
Proof. unfold ThreadEditModal.keystrokes. apply fold_left_app. Qed.

Lemma trim_validChars (text : string) :
  trim (TagInput.validChars text) = TagInput.validChars text.
Proof.
  apply trim_no_space.
  now destruct (validBuffer_no_space _ (validBuffer_validChars text)) as [H _].
Qed.

(** [#], a text and Enter in [TagInput]. *)
Lemma TagInput_hash_text_enter (tags : list string) (text : string) :
  TagInput.keystrokes false (TagInput.initial tags) ("#" :: typed text ++ ["Enter"])
  = TagInput.initial (withTag tags (cleanedOf text)).
Proof.
  change ("#" :: typed text ++ ["Enter"])%list
    with (["#"] ++ (typed text ++ ["Enter"]))%list.
  rewrite keystrokes_app_TagInput, keystrokes_app_TagInput.
  change (TagInput.keystrokes false (TagInput.initial tags) ["#"])
    with (TagInput.mkState true EmptyString tags EmptyString).
  rewrite TagInput_typing by reflexivity.
  cbn [append]. unfold TagInput.keystrokes. cbn [fold_left].
  unfold TagInput.keystroke, TagInput.handleKeyDown.
  cbn [TagInput.isTagging TagInput.tagDraft TagInput.value String.eqb Ascii.eqb
       Bool.eqb].
  rewrite trim_validChars. reflexivity.
Qed.

(** [#], a text and Enter in the modal. *)
Lemma Modal_hash_text_enter (tags : list string) (text : string) :
  ThreadEditModal.keystrokes (ThreadEditModal.initial tags)
    ("#" :: typed text ++ ["Enter"])
  = ThreadEditModal.initial (withTag tags (cleanedOf text)).
Proof.
  change ("#" :: typed text ++ ["Enter"])%list
    with (["#"] ++ (typed text ++ ["Enter"]))%list.
  rewrite keystrokes_app_Modal, keystrokes_app_Modal.
  change (ThreadEditModal.keystrokes (ThreadEditModal.initial tags) ["#"])
    with (ThreadEditModal.mkState tags true EmptyString).
  rewrite Modal_typing.
  cbn [append]. unfold ThreadEditModal.keystrokes. cbn [fold_left].
  unfold ThreadEditModal.keystroke, ThreadEditModal.onKeyDown.
  cbn [ThreadEditModal.isTagging ThreadEditModal.tagDraft ThreadEditModal.tags
       String.eqb Ascii.eqb Bool.eqb fst].
  rewrite trim_validChars. reflexivity.
Qed.

(** X5.  [#], then any text, then Enter: the composer is Idle again with
    an empty buffer, and the tags have grown by the lower-cased valid
    characters of the text, unless these are none or already a tag.
    Holds in [TagInput] and in [ThreadEditModal], for every text and
    every list of tags. *)
Theorem hash_text_enter_commits (tags : list string) (text : string) :
  TagInput.keystrokes false (TagInput.initial tags) ("#" :: typed text ++ ["Enter"])
  = TagInput.initial (withTag tags (cleanedOf text))
  /\ ThreadEditModal.keystrokes (ThreadEditModal.initial tags)
       ("#" :: typed text ++ ["Enter"])
     = ThreadEditModal.initial (withTag tags (cleanedOf text)).
Proof.
  split.
  - apply TagInput_hash_text_enter.
  - apply Modal_hash_text_enter.
Qed.

End TypingFacts.

(** ** Committed tags over time *)

Section TagListFacts.
Import Js Composer ComposerInputs FilterStateCodec.

Lemma TagInput_keystroke_appends (disabled : bool) (st : TagInput.State) (key : string) :
  exists added,
    TagInput.value (TagInput.keystroke disabled st key)
    = (TagInput.value st ++ added)%list
    /\ Forall (fun t => toLowerCase t = t /\ t <> EmptyString) added.
Proof.
  unfold TagInput.keystroke, TagInput.handleKeyDown.
  assert (Hsame : forall v : list string,
             exists added, v = (v ++ added)%list
               /\ Forall (fun t => toLowerCase t = t /\ t <> EmptyString) added)
    by (intros v; exists []; split; [now rewrite app_nil_r | constructor]).
  destruct disabled; [apply Hsame|].
  destruct (TagInput.isTagging st) eqn:T.
  - destruct (String.eqb key "Enter").
    + cbn [TagInput.value].
      destruct (isEmpty (toLowerCase (trim (TagInput.tagDraft st)))) eqn:E; simpl;
        [apply Hsame|].
      destruct (includes (TagInput.value st)
                  (toLowerCase (trim (TagInput.tagDraft st)))); simpl;
        [apply Hsame|].
      exists [toLowerCase (trim (TagInput.tagDraft st))]. split; [reflexivity|].
      constructor; [|constructor]. split; [apply toLowerCase_idem|].
      now apply isEmpty_false.
    + unfold TagInput.edit, TagInput.handleInputChange.
      repeat match goal with
             | |- context [if ?b then _ else _] => destruct b
             end; apply Hsame.
  - unfold TagInput.edit, TagInput.handleInputChange. simpl. rewrite T.
    repeat match goal with
           | |- context [if ?b then _ else _] => destruct b
           end; apply Hsame.
Qed.

Lemma Modal_keystroke_appends (m : ThreadEditModal.State) (key : string) :
  exists added,
    ThreadEditModal.tags (ThreadEditModal.keystroke m key)
    = (ThreadEditModal.tags m ++ added)%list
    /\ Forall (fun t => toLowerCase t = t /\ t <> EmptyString) added.
Proof.
  unfold ThreadEditModal.keystroke, ThreadEditModal.onKeyDown.
  assert (Hsame : forall v : list string,
             exists added, v = (v ++ added)%list
               /\ Forall (fun t => toLowerCase t = t /\ t <> EmptyString) added)
    by (intros v; exists []; split; [now rewrite app_nil_r | constructor]).
  destruct (String.eqb key "#");
    [destruct (ThreadEditModal.isTagging m); apply Hsame|].
  destruct (ThreadEditModal.isTagging m); [|apply Hsame].
  destruct (String.eqb key "Enter").
  - cbn [fst ThreadEditModal.tags].
    destruct (isEmpty (toLowerCase (trim (ThreadEditModal.tagDraft m)))) eqn:E;
      simpl; [apply Hsame|].
    destruct (includes (ThreadEditModal.tags m)
                (toLowerCase (trim (ThreadEditModal.tagDraft m)))); simpl;
      [apply Hsame|].
    exists [toLowerCase (trim (ThreadEditModal.tagDraft m))]. split; [reflexivity|].
    constructor; [|constructor]. split; [apply toLowerCase_idem|].
    now apply isEmpty_false.
  - repeat match goal with
           | |- context [if ?b then _ else _] => destruct b
           end; apply Hsame.
Qed.

(** X6.  Keystrokes never remove, change or reorder a committed tag: after
    any sequence of keys the old tags are still there, in order, followed
    by the tags the sequence added, each lower-case and not empty.  Holds
    in [TagInput] and in [ThreadEditModal]. *)
Theorem keystrokes_only_append (disabled : bool) (keys : list string)
  (st : TagInput.State) (m : ThreadEditModal.State) :
  (exists added,
      TagInput.value (TagInput.keystrokes disabled st keys)
      = (TagInput.value st ++ added)%list
      /\ Forall (fun t => toLowerCase t = t /\ t <> EmptyString) added)
  /\ (exists added,
         ThreadEditModal.tags (ThreadEditModal.keystrokes m keys)
         = (ThreadEditModal.tags m ++ added)%list
         /\ Forall (fun t => toLowerCase t = t /\ t <> EmptyString) added).
Proof.
  split.
  - unfold TagInput.keystrokes. revert st.
    induction keys as [|k rest IH]; intros st; cbn [fold_left].
    + exists []. split; [now rewrite app_nil_r | constructor].
    + destruct (IH (TagInput.keystroke disabled st k)) as [a2 [E2 F2]].
      destruct (TagInput_keystroke_appends disabled st k) as [a1 [E1 F1]].
      exists (a1 ++ a2)%list. split.
      * now rewrite E2, E1, app_assoc.
      * apply Forall_app. now split.
  - unfold ThreadEditModal.keystrokes. revert m.
    induction keys as [|k rest IH]; intros m; cbn [fold_left].
    + exists []. split; [now rewrite app_nil_r | constructor].
    + destruct (IH (ThreadEditModal.keystroke m k)) as [a2 [E2 F2]].
      destruct (Modal_keystroke_appends m k) as [a1 [E1 F1]].
      exists (a1 ++ a2)%list. split.
      * now rewrite E2, E1, app_assoc.
      * apply Forall_app. now split.
Qed.

Lemma without_not_In (t : string) (tags : list string) :
  ~ In t tags -> without t tags = tags.
Proof.
  induction tags as [|u rest IH]; simpl; intros H; [reflexivity|].
  destruct (String.eqb_spec u t) as [-> | Hne]; simpl.
  - exfalso. apply H. now left.
  - f_equal. apply IH. intros Hin. apply H. now right.
Qed.

Lemma without_app (t : string) (a b : list string) :
  without t (a ++ b) = (without t a ++ without t b)%list.
Proof. unfold without. apply filter_app. Qed.

Lemma without_withTag (t : string) (tags : list string) :
  without t (withTag tags t) = without t tags.
Proof.
  unfold withTag.
  destruct (negb (isEmpty t) && negb (includes tags t))%bool; [|reflexivity].
  rewrite without_app. simpl. rewrite String.eqb_refl. simpl. apply app_nil_r.
Qed.

Lemma In_without (t u : string) (tags : list string) :
  In u (without t tags) <-> In u tags /\ u <> t.
Proof.
  unfold without. rewrite filter_In, negb_true_iff, String.eqb_neq. tauto.
Qed.

(** X7.  Removing a tag deletes every occurrence of it and nothing else,
    and undoes a commit: after [#], a text and Enter, the click on the
    cross of the committed tag gives the tags without it, which are the
    tags from before when the tag was new.  A list without duplicates
    stays so.  Holds in [TagInput] and in [ThreadEditModal]. *)
Theorem remove_undoes_commit (tags : list string) (text : string) :
  let t := cleanedOf text in
  removeTag false
    (TagInput.keystrokes false (TagInput.initial tags) ("#" :: typed text ++ ["Enter"])) t
  = TagInput.initial (without t tags)
  /\ removeChip
       (ThreadEditModal.keystrokes (ThreadEditModal.initial tags)
          ("#" :: typed text ++ ["Enter"])) t
     = ThreadEditModal.initial (without t tags)
  /\ (~ In t tags -> without t tags = tags)
  /\ (forall u, In u (without t tags) <-> In u tags /\ u <> t)
  /\ (NoDup tags -> NoDup (without t tags)).
Proof.
  intros t.
  assert (H1 := TagInput_hash_text_enter tags text).
  assert (H2 := Modal_hash_text_enter tags text).
  split; [|split; [|split; [|split]]].
  - rewrite H1. unfold removeTag, TagInput.initial. cbn [TagInput.value
      TagInput.isTagging TagInput.tagDraft TagInput.inputValue].
    now rewrite without_withTag.
  - rewrite H2. unfold removeChip, ThreadEditModal.initial.
    cbn [ThreadEditModal.tags ThreadEditModal.isTagging ThreadEditModal.tagDraft].
    now rewrite without_withTag.
  - apply without_not_In.
  - intros u. apply In_without.
  - intros H. unfold without. now apply NoDup_filter.
Qed.

Lemma remove_undoes_commit_witness :
  removeTag false
    (TagInput.keystrokes false (TagInput.initial ["go"]) ("#" :: typed "Rust" ++ ["Enter"]))
    "rust"
  = TagInput.initial ["go"].
Proof.
  destruct (remove_undoes_commit ["go"] "Rust") as [H1 [_ [H3 _]]].
  assert (Hn : ~ In (cleanedOf "Rust") ["go"])
    by (simpl; intros [H | []]; discriminate H).
  etransitivity; [exact H1|]. exact (f_equal TagInput.initial (H3 Hn)).
Defined.

End TagListFacts.

(** ** What the composers keep true *)

Section ComposerInvariants.
Import Js Composer ComposerInputs.

(** The state of [TagInput] between events. *)
Lemma settled_quiet_shape (st : TagInput.State) :
  settled st -> quiet (TagInput.isTagging st) (TagInput.tagDraft st) ->
  (st = TagInput.mkState false EmptyString (TagInput.value st) EmptyString)
  \/ (st = TagInput.mkState true (TagInput.tagDraft st) (TagInput.value st)
            (TagInput.tagDraft st)
      /\ validBuffer (TagInput.tagDraft st) = true).
Proof.
  destruct st as [tg d v iv]. unfold settled, quiet.
  cbn [TagInput.isTagging TagInput.tagDraft TagInput.value TagInput.inputValue].
  intros [Hiv Hval] Hq. destruct tg; subst iv.
  - right. now split.
  - left. now rewrite (Hq eq_refl).
Qed.

Lemma settled_idle (v : list string) :
  settled (TagInput.mkState false EmptyString v EmptyString)
  /\ quiet false EmptyString.
Proof. repeat split. Qed.

Lemma settled_drafting (d : string) (v : list string) :
  validBuffer d = true ->
  settled (TagInput.mkState true d v d) /\ quiet true d.
Proof. intros H. repeat split; [assumption|]. intros E. discriminate E. Qed.

Lemma TagInput_keystroke_invariant (disabled : bool) (st : TagInput.State)
  (key : string) :
  settled st -> quiet (TagInput.isTagging st) (TagInput.tagDraft st) ->
  settled (TagInput.keystroke disabled st key)
  /\ quiet (TagInput.isTagging (TagInput.keystroke disabled st key))
       (TagInput.tagDraft (TagInput.keystroke disabled st key)).
Proof.
  intros Hs Hq. destruct disabled; [now split|].
  destruct (settled_quiet_shape st Hs Hq) as [E | [E Hv]];
    rewrite E; set (d := TagInput.tagDraft st) in *; set (v := TagInput.value st).
  - destruct (String.eqb_spec key "#") as [-> | Hhash].
    + change (TagInput.keystroke false
                (TagInput.mkState false EmptyString v EmptyString) "#")
        with (TagInput.mkState true EmptyString v EmptyString).
      now apply settled_drafting.
    + rewrite TagInput_idle_key by assumption. apply settled_idle.
  - destruct (String.eqb_spec key "Enter") as [-> | Henter].
    { cbn. repeat split. }
    destruct (String.eqb_spec key "Escape") as [-> | Hesc].
    { cbn. repeat split. }
    destruct (String.eqb_spec key "Backspace") as [-> | Hbs].
    { destruct (String.eqb_spec d EmptyString) as [Hd | Hd].
      - rewrite Hd, TagInput_backspace_at_empty. apply settled_idle.
      - rewrite TagInput_backspace by assumption.
        apply settled_drafting. now apply forallChar_dropLast. }
    destruct (Nat.eq_dec (String.length key) 1) as [Hl | Hl].
    + apply length_one in Hl as [c ->].
      destruct (TagInput.isTagChar c) eqn:V.
      * rewrite TagInput_valid_char by assumption.
        apply settled_drafting. now apply validBuffer_append_key.
      * rewrite TagInput_invalid_char
          by (try reflexivity; now rewrite valid_char).
        now apply settled_drafting.
    + rewrite TagInput_other_key by assumption. now apply settled_drafting.
Qed.

Lemma TagInput_paste_invariant (disabled : bool) (st : TagInput.State)
  (text : string) :
  settled st -> quiet (TagInput.isTagging st) (TagInput.tagDraft st) ->
  settled (TagInput.paste disabled st text)
  /\ quiet (TagInput.isTagging (TagInput.paste disabled st text))
       (TagInput.tagDraft (TagInput.paste disabled st text)).
Proof.
  intros Hs Hq. unfold TagInput.paste. destruct disabled; [now split|].
  unfold TagInput.edit.
  destruct (String.eqb (TagInput.inputValue st ++ text) (TagInput.inputValue st));
    [now split|].
  unfold TagInput.handleInputChange, TagInput.withInput.
  cbn [TagInput.isTagging TagInput.inputValue TagInput.value TagInput.tagDraft].
  destruct (TagInput.isTagging st) eqn:T.
  - apply settled_drafting, validBuffer_validChars.
  - destruct (existsChar (Ascii.eqb "#") (TagInput.inputValue st ++ text)).
    + apply settled_drafting, validBuffer_validChars.
    + rewrite (Hq eq_refl).
      destruct (isEmpty (TagInput.inputValue st ++ text)) eqn:E; cbn [negb].
      * apply isEmpty_true in E. rewrite E. apply settled_idle.
      * apply settled_idle.
Qed.

Lemma TagInput_remove_invariant (disabled : bool) (st : TagInput.State)
  (tag : string) :
  settled st -> quiet (TagInput.isTagging st) (TagInput.tagDraft st) ->
  settled (removeTag disabled st tag)
  /\ quiet (TagInput.isTagging (removeTag disabled st tag))
       (TagInput.tagDraft (removeTag disabled st tag)).
Proof.
  intros Hs Hq. unfold removeTag. destruct disabled; now split.
Qed.

Lemma Modal_keystroke_quiet (m : ThreadEditModal.State) (key : string) :
  quiet (ThreadEditModal.isTagging m) (ThreadEditModal.tagDraft m) ->
  quiet (ThreadEditModal.isTagging (ThreadEditModal.keystroke m key))
    (ThreadEditModal.tagDraft (ThreadEditModal.keystroke m key)).
Proof.
  unfold quiet, ThreadEditModal.keystroke, ThreadEditModal.onKeyDown. intros Hq.
  destruct (String.eqb key "#").
  { destruct (ThreadEditModal.isTagging m) eqn:T; cbn; [now rewrite T | discriminate]. }
  destruct (ThreadEditModal.isTagging m) eqn:T; [|cbn; now rewrite T].
  destruct (String.eqb key "Enter"); [reflexivity|].
  destruct (String.eqb key "Backspace"); [cbn; discriminate|].
  destruct (String.eqb key "Escape"); [reflexivity|].
  destruct (Nat.eqb (String.length key) 1);
    [destruct (TagInput.valid key)|]; cbn; try discriminate;
    rewrite T; discriminate.
Qed.

(** X8.  Between any two events, whatever was typed, pasted or removed
    before, the input element of [TagInput] shows exactly the draft while
    drafting and is empty otherwise, the draft is valid, and outside
    Drafting the draft is empty.  In [ThreadEditModal] too the draft is
    valid, and empty outside Drafting, after any keys, pastes, removals
    and resets of the tags. *)
Theorem composer_state_between_events (disabled : bool) (tags : list string)
  (inputs : list Input) (modalInputs : list ModalInput) :
  (let st := feedAll disabled (TagInput.initial tags) inputs in
   settled st /\ quiet (TagInput.isTagging st) (TagInput.tagDraft st))
  /\ (let m := modalFeedAll (ThreadEditModal.initial tags) modalInputs in
      validBuffer (ThreadEditModal.tagDraft m) = true
      /\ quiet (ThreadEditModal.isTagging m) (ThreadEditModal.tagDraft m)).
Proof.
  split.
  - assert (H : forall st,
               settled st /\ quiet (TagInput.isTagging st) (TagInput.tagDraft st) ->
               settled (feedAll disabled st inputs)
               /\ quiet (TagInput.isTagging (feedAll disabled st inputs))
                    (TagInput.tagDraft (feedAll disabled st inputs))).
    { unfold feedAll. induction inputs as [|i rest IH]; intros st [Hs Hq];
        cbn [fold_left]; [now split|].
      apply IH. destruct i as [key | text | tag]; cbn [feed].
      - now apply TagInput_keystroke_invariant.
      - now apply TagInput_paste_invariant.
      - now apply TagInput_remove_invariant. }
    apply H, settled_idle.
  - assert (H : forall m,
               validBuffer (ThreadEditModal.tagDraft m) = true
               /\ quiet (ThreadEditModal.isTagging m) (ThreadEditModal.tagDraft m) ->
               validBuffer (ThreadEditModal.tagDraft (modalFeedAll m modalInputs)) = true
               /\ quiet (ThreadEditModal.isTagging (modalFeedAll m modalInputs))
                    (ThreadEditModal.tagDraft (modalFeedAll m modalInputs))).
    { unfold modalFeedAll. induction modalInputs as [|i rest IH]; intros m [Hv Hq];
        cbn [fold_left]; [now split|].
      apply IH. destruct i as [key | text | tag | names]; cbn [modalFeed].
      - split; [now apply Modal_keystroke_valid | now apply Modal_keystroke_quiet].
      - now split.
      - now split.
      - now split. }
    apply H. split; [reflexivity | intros _; reflexivity].
Qed.

End ComposerInvariants.

Section PasteFacts.
Import Js Composer ComposerInputs.

Lemma split_not_nil (sep : ascii) (s : string) : split sep s <> [].
Proof.
  destruct s as [|c r]; simpl; [discriminate|].
  destruct (Ascii.eqb c sep); [discriminate|].
  destruct (split sep r); discriminate.
Qed.

Lemma last_cons {A : Type} (x d : A) (l : list A) :
  l <> [] -> List.last (x :: l) d = List.last l d.
Proof. destruct l; [congruence | reflexivity]. Qed.

(** The parts of a text after its last separator. *)
Lemma split_after_separator (sep : ascii) (post pre : string) :
  exists h t,
    split sep (pre ++ String sep post) = h :: t
    /\ t <> []
    /\ List.last t EmptyString = List.last (split sep post) EmptyString.
Proof.
  induction pre as [|c p IH].
  - exists EmptyString, (split sep post). cbn [append split].
    rewrite Ascii.eqb_refl. repeat split. apply split_not_nil.
  - destruct IH as [h [t [E [Ht Hl]]]]. cbn [append split]. rewrite E.
    destruct (Ascii.eqb c sep).
    + exists EmptyString, (h :: t). repeat split; [discriminate|].
      now rewrite last_cons.
    + exists (String c h), t. now repeat split.
Qed.

Lemma lastPart_after_separator (sep : ascii) (pre post : string) :
  existsChar (fun c => Ascii.eqb c sep) post = false ->
  lastPart (split sep (pre ++ String sep post)) = post.
Proof.
  intros H. destruct (split_after_separator sep post pre) as [h [t [E [Ht Hl]]]].
  unfold lastPart. rewrite E, last_cons, Hl by assumption.
  now rewrite split_no_sep.
Qed.

Lemma existsChar_middle (p : ascii -> bool) (pre post : string) (c : ascii) :
  p c = true -> existsChar p (pre ++ String c post) = true.
Proof.
  intros H. induction pre as [|x r IH]; cbn [append existsChar].
  - now rewrite H.
  - rewrite IH. apply orb_true_r.
Qed.

Lemma existsChar_ext (p q : ascii -> bool) (s : string) :
  (forall c, p c = q c) -> existsChar p s = existsChar q s.
Proof.
  intros H. induction s as [|c r IH]; simpl; [reflexivity|]. now rewrite H, IH.
Qed.

(** X9.  Text with a [#] pasted into the idle [TagInput] starts a draft
    holding the valid characters that follow the last [#]; what stands
    before it, earlier [#] included, is dropped, and no tag is
    committed. *)
Theorem paste_starts_draft_after_last_hash (tags : list string) (pre post : string) :
  existsChar (Ascii.eqb "#") post = false ->
  TagInput.paste false (TagInput.initial tags) (pre ++ String "#" post)
  = TagInput.mkState true (TagInput.validChars post) tags (TagInput.validChars post).
Proof.
  intros H. unfold TagInput.paste, TagInput.edit, TagInput.initial.
  cbn [TagInput.inputValue]. change (EmptyString ++ ?x)%string with x.
  assert (Hne : (pre ++ String "#" post)%string <> EmptyString)
    by (destruct pre; discriminate).
  apply String.eqb_neq in Hne. rewrite Hne.
  unfold TagInput.handleInputChange, TagInput.withInput.
  cbn [TagInput.isTagging TagInput.inputValue TagInput.value TagInput.tagDraft].
  rewrite (existsChar_middle (Ascii.eqb "#") pre post "#") by reflexivity.
  rewrite lastPart_after_separator; [reflexivity|].
  rewrite (existsChar_ext (fun c => Ascii.eqb c "#") (Ascii.eqb "#"));
    [exact H | intros c; apply Ascii.eqb_sym].
Qed.

Lemma paste_starts_draft_after_last_hash_witness :
  TagInput.paste false (TagInput.initial ["go"]) "see #old and #Rust lang!"
  = TagInput.mkState true "Rustlang" ["go"] "Rustlang".
Proof.
  apply (paste_starts_draft_after_last_hash ["go"] "see #old and " "Rust lang!").
  reflexivity.
Defined.

End PasteFacts.

(** ** The controls of the threads page *)

Section ControlFacts.
Import Js ThreadsListPage ThreadsListControls.

Lemma ceilDiv_le (n p : Z) : ceilDiv n PAGE_SIZE <= p <-> n <= PAGE_SIZE * p.
Proof.
  unfold ceilDiv, PAGE_SIZE.
  assert (E := Z.div_mod (- n) 20 ltac:(lia)).
  assert (B := Z.mod_pos_bound (- n) 20 ltac:(lia)).
  split; intros H; lia.
Qed.

Lemma target_doSearchWithFilters (keyword : string) (tagsToUse : list string)
  (categoryToUse : string) (targetPage : Z) :
  targetOf (snd (doSearchWithFilters keyword tagsToUse categoryToUse targetPage))
  = targetPage.
Proof.
  unfold doSearchWithFilters. now destruct (isEmpty (trim keyword)).
Qed.

Lemma loadAllThreads_doSearch (render : State) (targetPage : Z) :
  loadAllThreads render targetPage = doSearch render targetPage.
Proof.
  unfold loadAllThreads, doSearch, doSearchWithFilters, loadThreadsWithFilters.
  now destruct (isEmpty (trim (q render))).
Qed.

Lemma target_paginate (render : State) (targetPage : Z) :
  targetOf (snd (paginate render targetPage)) = targetPage.
Proof.
  unfold paginate. rewrite loadAllThreads_doSearch. unfold doSearch.
  destruct (isSearching render); [apply target_doSearchWithFilters|].
  destruct (negb (isNil (tags render)) || negb (isEmpty (trim (category render))))%bool;
    [reflexivity | apply target_doSearchWithFilters].
Qed.

(** X10.  With a numeric total, Next is enabled exactly when the page is
    not loading and threads remain beyond the current page
    ([page * 20 < total]); it then asks for the next page, which is not
    beyond the last one.  With no total known only loading disables it.
    Previous is enabled exactly when the page is not loading and above 1,
    and then asks for the page before, which is at least 1. *)
Theorem pagination_stays_in_range (st : State) :
  (forall n, total st = JNum n ->
     (nextDisabled st = Some false <-> loading st = false /\ PAGE_SIZE * page st < n)
     /\ (nextDisabled st = Some false ->
         targetOf (snd (onNext st)) = page st + 1
         /\ page st + 1 <= ceilDiv n PAGE_SIZE))
  /\ (total st = JNull -> (nextDisabled st = Some false <-> loading st = false))
  /\ (previousDisabled st = false <-> loading st = false /\ 1 < page st)
  /\ (previousDisabled st = false ->
      targetOf (snd (onPrevious st)) = page st - 1 /\ 1 <= page st - 1).
Proof.
  assert (Hnext : forall n, total st = JNum n ->
            (nextDisabled st = Some false
             <-> loading st = false /\ PAGE_SIZE * page st < n)).
  { intros n Hn. unfold nextDisabled. rewrite Hn.
    destruct (loading st); cbn [orb].
    - split; [discriminate | intros [H _]; discriminate H].
    - destruct (Z.leb_spec (ceilDiv n PAGE_SIZE) (page st)) as [H | H].
      + apply ceilDiv_le in H. split; [discriminate | lia].
      + split; [|reflexivity]. intros _. split; [reflexivity|].
        assert (~ n <= PAGE_SIZE * page st) by (rewrite <- ceilDiv_le; lia). lia. }
  assert (Hprev : previousDisabled st = false <-> loading st = false /\ 1 < page st).
  { unfold previousDisabled. rewrite orb_false_iff, Z.leb_gt. tauto. }
  split; [|split; [|split]].
  - intros n Hn. split; [now apply Hnext|]. intros H.
    apply (Hnext n Hn) in H as [_ H]. split; [apply target_paginate|].
    assert (~ ceilDiv n PAGE_SIZE <= page st) by (rewrite ceilDiv_le; lia). lia.
  - intros Hn. unfold nextDisabled. rewrite Hn.
    split; [now intros [= ->] | now intros ->].
  - exact Hprev.
  - intros H. apply Hprev in H as [_ H]. split; [apply target_paginate | lia].
Qed.

Lemma pagination_stays_in_range_witness :
  nextDisabled (commit (JArr []) (JNum 41) 2 false initial) = Some false
  /\ nextDisabled (commit (JArr []) (JNum 40) 2 false initial) <> Some false
  /\ targetOf (snd (onPrevious (commit (JArr []) (JNum 41) 2 false initial))) = 1.
Proof.
  destruct (pagination_stays_in_range (commit (JArr []) (JNum 41) 2 false initial))
    as [H1 [_ [H3 H4]]].
  destruct (pagination_stays_in_range (commit (JArr []) (JNum 40) 2 false initial))
    as [G1 _].
  split; [|split].
  - apply (proj1 (H1 41 eq_refl)). split; [reflexivity | reflexivity].
  - intros H. apply (proj1 (G1 40 eq_refl)) in H as [_ H]. discriminate H.
  - apply H4. apply H3. split; reflexivity.
Defined.

(** X11.  The three branches of the pagination buttons send the request
    of [doSearch] for the page asked, except when the page is not in
    search mode and a tag or a category is set: then the listing is asked
    and the keyword standing in the search box is not sent.
    [loadAllThreads] is [doSearch], and the two branches of the category
    select are the one call [doSearchWithFilters]. *)
Theorem pagination_dispatch (render : State) (targetPage : Z) (newCategory : string) :
  let filtersSet :=
    (negb (isNil (tags render)) || negb (isEmpty (trim (category render))))%bool in
  loadAllThreads render targetPage = doSearch render targetPage
  /\ (isSearching render = true \/ filtersSet = false
      \/ isEmpty (trim (q render)) = true ->
      paginate render targetPage = doSearch render targetPage)
  /\ (isSearching render = false -> filtersSet = true ->
      paginate render targetPage
      = (GetThreads (listParams (tags render) (category render) targetPage),
         AwaitThreads targetPage))
  /\ snd (onCategoryChange render newCategory)
     = doSearchWithFilters (q render) (tags render) newCategory 1.
Proof.
  intros filtersSet. split; [apply loadAllThreads_doSearch|]. split; [|split].
  - unfold paginate. fold filtersSet. rewrite loadAllThreads_doSearch.
    intros [H | [H | H]].
    + now rewrite H.
    + rewrite H. now destruct (isSearching render).
    + destruct (isSearching render); [reflexivity|].
      destruct filtersSet; [|reflexivity].
      unfold doSearch, doSearchWithFilters. now rewrite H.
  - intros Hs Hf. unfold paginate. fold filtersSet. now rewrite Hs, Hf.
  - unfold onCategoryChange, doSearchWithFilters. cbn [snd].
    now destruct (isEmpty (trim (q render))).
Qed.

Lemma pagination_dispatch_witness :
  paginate (setQ "exam" (setTags ["cs101"] initial)) 2
  = (GetThreads [("page", "2"); ("tag", "cs101")], AwaitThreads 2)
  /\ paginate (setIsSearching true (setQ "exam" (setTags ["cs101"] initial))) 2
     = doSearch (setIsSearching true (setQ "exam" (setTags ["cs101"] initial))) 2.
Proof.
  split.
  - apply (proj1 (proj2 (proj2
      (pagination_dispatch (setQ "exam" (setTags ["cs101"] initial)) 2 ""))));
      reflexivity.
  - apply (proj1 (proj2
      (pagination_dispatch (setIsSearching true (setQ "exam" (setTags ["cs101"] initial)))
         2 ""))).
    left. reflexivity.
Defined.

End ControlFacts.

(** ** Sessions of the threads page *)

Section SessionFacts.
Import Js ThreadsListPage ThreadsListControls.

Variable te : string.

(** A call commits the page it was made for, and hands it on to its
    second request. *)
Lemma body_target (p : Pending) (r : Response) (n : Next) :
  body te p r = Return n ->
  match n with
  | Commit _ _ targetPage _ => targetPage = targetOf p
  | Ask _ continuation => targetOf continuation = targetOf p
  end.
Proof.
  intros H. destruct p as [pg | t c pg | res hits pg]; cbn [body targetOf] in *.
  - unfold threadsBody, prop, bind in H.
    repeat match type of H with
           | context [match ?x with _ => _ end] => destruct x
           end; try discriminate; injection H as <-; reflexivity.
  - unfold searchBody, searchApi, commitSearch, arrayMap, prop, bind in H.
    repeat match type of H with
           | context [match ?x with _ => _ end] => destruct x
           end; try discriminate; injection H as <-; reflexivity.
  - unfold filterBody, commitSearch, arrayMap, prop, bind in H.
    repeat match type of H with
           | context [match ?x with _ => _ end] => destruct x
           end; try discriminate; injection H as <-; reflexivity.
Qed.

Lemma page_catchOf (p : Pending) (m : string) (st : State) :
  page (catchOf p m st) = page st.
Proof. now destruct p. Qed.

Lemma resume_target (st : State) (p : Pending) (r : Response) :
  1 <= page st -> 1 <= targetOf p ->
  1 <= page (fst (resume te st p r))
  /\ 1 <= targetOfCall
            (option_map (fun c => Discovery (snd c)) (snd (resume te st p r))).
Proof.
  intros Hp Ht. unfold resume. destruct (body te p r) as [n | m] eqn:B.
  - apply body_target in B. destruct n as [rs tot pg sr | rq p']; cbn.
    + split; lia.
    + split; lia.
  - cbn. rewrite page_catchOf. split; lia.
Qed.

Lemma page_handleClearResume (st : State) (r : Response) :
  1 <= page st -> 1 <= page (handleClearResume te st r).
Proof.
  intros H. unfold handleClearResume.
  destruct (handleClearBody te r) as [[results t] | m]; cbn; lia.
Qed.

Lemma Forall_replace {A : Type} (P : A -> Prop) (l : list A) (n : nat) (x : A) :
  Forall P l -> P x -> Forall P (replace n x l).
Proof.
  intros Hl Hx. revert n. induction Hl as [|y l Hy Hl IH]; intros [|n]; simpl;
    constructor; auto.
Qed.

Lemma Forall_snoc {A : Type} (P : A -> Prop) (l : list A) (x : A) :
  Forall P l -> P x -> Forall P (l ++ [x]).
Proof. intros Hl Hx. apply Forall_app. split; [assumption | now constructor]. Qed.

Lemma start_positive (s : Session) (c : Request * Pending) :
  pagesPositive s -> 1 <= targetOf (snd c) -> pagesPositive (start s c).
Proof.
  intros [Hp [Hc Ht]] H. unfold start, pagesPositive. cbn.
  repeat split; [assumption | now apply Forall_snoc | assumption].
Qed.

Lemma withView_positive (s : Session) (st : State) :
  pagesPositive s -> page st = page (view s) -> pagesPositive (withView s st).
Proof.
  intros [Hp [Hc Ht]] H. unfold withView, pagesPositive. cbn. rewrite H.
  now repeat split.
Qed.

Lemma act_positive (s : Session) (a : Action) :
  pagesPositive s -> pagesPositive (act te s a).
Proof.
  intros Hs. destruct a; cbn [act].
  - destruct (previousDisabled (view s)) eqn:D; [assumption|].
    apply start_positive; [assumption|]. unfold onPrevious. rewrite target_paginate.
    unfold previousDisabled in D. apply orb_false_iff in D as [_ D].
    apply Z.leb_gt in D. lia.
  - assert (H : pagesPositive (start s (onNext (view s)))).
    { apply start_positive; [assumption|]. unfold onNext. rewrite target_paginate.
      destruct Hs as [Hp _]. lia. }
    destruct (nextDisabled (view s)) as [[|]|]; assumption.
  - apply start_positive; [assumption|]. unfold onSearch.
    rewrite target_doSearchWithFilters. lia.
  - now apply withView_positive.
  - unfold onCategoryChange. apply start_positive.
    + now apply withView_positive.
    + destruct (negb (isEmpty (trim (q (view s)))));
        [rewrite target_doSearchWithFilters | cbn]; lia.
  - unfold onTagsChange. destruct Hs as [Hp [Hc Ht]]. unfold pagesPositive. cbn.
    repeat split; [assumption | assumption|]. apply Forall_snoc; [assumption|].
    destruct (negb (isNil newTags) || negb (isNil (tags (view s))))%bool;
      [|cbn; lia].
    destruct (negb (isEmpty (trim (q (view s))))).
    + destruct (doSearchWithFilters (q (view s)) newTags (category (view s)) 1)
        as [rq p] eqn:E. cbn.
      change p with (snd (rq, p)). rewrite <- E, target_doSearchWithFilters. lia.
    + cbn. lia.
  - destruct (nth_error (timers s) timer) as [[c|]|] eqn:E; try assumption.
    destruct Hs as [Hp [Hc Ht]].
    apply start_positive.
    + unfold pagesPositive. cbn. repeat split; try assumption.
      apply Forall_replace; [assumption | cbn; lia].
    + apply nth_error_In in E. rewrite Forall_forall in Ht.
      specialize (Ht _ E). destruct c as [rq p]. exact Ht.
  - unfold onTagClick.
    destruct (negb (isEmpty tagName) && negb (includes (tags (view s)) tagName))%bool.
    + apply start_positive; [now apply withView_positive | cbn; lia].
    + now apply withView_positive.
  - destruct (clearShown (view s)); [|assumption].
    destruct Hs as [Hp [Hc Ht]]. unfold pagesPositive. cbn.
    repeat split; [assumption | apply Forall_snoc; [assumption | cbn; lia]
                  | assumption].
  - unfold onLocation. destruct loggedIn; cbn [negb].
    + destruct Hs as [Hp [Hc Ht]]. unfold pagesPositive. cbn.
      repeat split; [assumption | | assumption].
      apply Forall_snoc; [assumption|]. cbn [targetOfCall].
      rewrite loadAllThreads_doSearch.
      match goal with |- context [if ?b then _ else _] => destruct b end;
        unfold doSearch; rewrite target_doSearchWithFilters; lia.
    + now apply withView_positive.
  - now apply withView_positive.
  - destruct (nth_error (calls s) call) as [[[p|]|]|] eqn:E; try assumption.
    + destruct Hs as [Hp [Hc Ht]].
      assert (Hin := nth_error_In _ _ E). rewrite Forall_forall in Hc.
      assert (Htp := Hc _ Hin). cbn in Htp.
      destruct (resume_target (view s) p r Hp Htp) as [H1 H2].
      destruct (resume te (view s) p r) as [st next]. unfold pagesPositive. cbn in *.
      repeat split; [assumption | | assumption].
      apply Forall_replace; [now apply Forall_forall | assumption].
    + destruct Hs as [Hp [Hc Ht]]. unfold pagesPositive. cbn.
      repeat split; [now apply page_handleClearResume | | assumption].
      apply Forall_replace; [assumption | cbn; lia].
Qed.

(** X12.  In every session of the threads page, whatever the user does
    and in whatever order the responses come, the page shown is at least
    1, and so is the page every suspended call and every pending timer
    was made for. *)
Theorem page_at_least_one (actions : list Action) :
  pagesPositive (session te actions)
  /\ 1 <= page (view (session te actions)).
Proof.
  assert (H : forall s, pagesPositive s -> pagesPositive (fold_left (act te) actions s)).
  { induction actions as [|a rest IH]; intros s Hs; cbn [fold_left];
      [assumption|]. apply IH. now apply act_positive. }
  assert (H0 : pagesPositive opened).
  { unfold pagesPositive, opened. cbn. repeat split; [lia | constructor | constructor]. }
  split; [|apply (proj1 (H opened H0))]. now apply H.
Qed.

End SessionFacts.

(** ** Overlapping calls and the loading flag *)

Section LoadingFacts.
Import Js ThreadsListPage.

Variable te : string.

Lemma loading_resume_done (st : State) (p : Pending) (r : Response) :
  snd (resume te st p r) = None -> loading (fst (resume te st p r)) = false.
Proof.
  unfold resume. destruct (body te p r) as [[rs tot pg sr | rq p'] | m]; cbn.
  - reflexivity.
  - discriminate.
  - intros _. now destruct p.
Qed.

(** X13.  [loading] is a flag, not a count: with two calls in flight, as
    soon as the response of one lets that call run to its end, by a
    commit or by an error, [loading] is false although the other call is
    still waiting for its response. *)
Theorem loading_ends_with_first_response (w : World)
  (k1 k2 : string) (t1 t2 : list string) (c1 c2 : string) (p1 p2 : Z)
  (r : Response) :
  let first := doSearchWithFilters k1 t1 c1 p1 in
  let second := doSearchWithFilters k2 t2 c2 p2 in
  let n := List.length (waiting w) in
  let sent := run te w [CallDoSearchWithFilters k1 t1 c1 p1;
                        CallDoSearchWithFilters k2 t2 c2 p2] in
  (snd (resume te (ui sent) (snd first) r) = None ->
   let w' := step te sent (Arrive n r) in
   loading (ui sent) = true
   /\ loading (ui w') = false
   /\ nth_error (waiting w') n = Some None
   /\ nth_error (waiting w') (S n) = Some (Some (snd second)))
  /\ (snd (resume te (ui sent) (snd second) r) = None ->
      let w' := step te sent (Arrive (S n) r) in
      loading (ui w') = false
      /\ nth_error (waiting w') n = Some (Some (snd first))
      /\ nth_error (waiting w') (S n) = Some None).
Proof.
  intros first second n sent.
  assert (Hsent : sent = issue (issue w first) second) by reflexivity.
  destruct (waiting_issue2 w first second) as [N1 N2]. fold n in N1, N2.
  rewrite <- Hsent in N1, N2.
  assert (Hlen : List.length (waiting sent) = S (S n)).
  { rewrite Hsent. unfold issue. cbn [waiting]. rewrite !length_app. simpl.
    unfold n. lia. }
  split.
  - intros Hdone w'. subst w'. cbn [step]. rewrite N1.
    assert (Hl := loading_resume_done (ui sent) (snd first) r Hdone).
    destruct (resume te (ui sent) (snd first) r) as [st next]. cbn [fst snd] in *.
    subst next. cbn [ui waiting option_map].
    repeat split; [assumption | |].
    + apply nth_error_replace_same. lia.
    + rewrite nth_error_replace_other by lia. assumption.
  - intros Hdone w'. subst w'. cbn [step]. rewrite N2.
    assert (Hl := loading_resume_done (ui sent) (snd second) r Hdone).
    destruct (resume te (ui sent) (snd second) r) as [st next]. cbn [fst snd] in *.
    subst next. cbn [ui waiting option_map].
    repeat split; [assumption | |].
    + rewrite nth_error_replace_other by lia. assumption.
    + apply nth_error_replace_same. lia.
Qed.

End LoadingFacts.

Lemma loading_ends_with_first_response_witness :
  let sent := ThreadsListPage.run "TypeError"
                (ThreadsListPage.mkWorld ThreadsListPage.initial [])
                [ThreadsListPage.CallDoSearchWithFilters "" [] "" 1;
                 ThreadsListPage.CallDoSearchWithFilters "exam" [] "" 1] in
  let w' := ThreadsListPage.step "TypeError" sent
              (ThreadsListPage.Arrive 0 (ThreadsListPage.Rejected "Failed to fetch")) in
  ThreadsListPage.loading (ThreadsListPage.ui w') = false
  /\ nth_error (ThreadsListPage.waiting w') 1
     = Some (Some (ThreadsListPage.AwaitSearch [] "" 1)).
Proof.
  destruct (loading_ends_with_first_response "TypeError"
              (ThreadsListPage.mkWorld ThreadsListPage.initial [])
              "" "exam" [] [] "" "" 1 1 (ThreadsListPage.Rejected "Failed to fetch"))
    as [H _].
  destruct (H eq_refl) as [_ [H2 [_ H4]]]. split; [exact H2 | exact H4].
Defined.

(** ** Navigation *)

Section NavigationFacts.
Import Js ThreadsListPage ThreadsListControls.

(** X14.  The call the location effect makes does not depend on the URL:
    it is [doSearch(1)] on the filters of the render the effect belongs
    to, while the filters read from the URL are only assigned to the
    state.  So the effect of the first render, whatever the URL, asks for
    the first page of all threads. *)
Theorem navigation_request_ignores_url (render : State) (search : URLSearchParams.t) :
  snd (onLocation true render search) = Some (doSearch render 1)
  /\ q (fst (onLocation true render search))
     = FilterStateCodec.keyword (FilterStateCodec.decode search)
  /\ tags (fst (onLocation true render search))
     = FilterStateCodec.tags (FilterStateCodec.decode search)
  /\ category (fst (onLocation true render search))
     = FilterStateCodec.categoryId (FilterStateCodec.decode search)
  /\ snd (onLocation true initial search)
     = Some (GetThreads [("page", "1")], AwaitThreads 1).
Proof.
  assert (H : forall st, snd (onLocation true st search) = Some (doSearch st 1)).
  { intros st. unfold onLocation. cbn [negb snd].
    rewrite loadAllThreads_doSearch.
    now destruct (negb (isEmpty (trim (FilterStateCodec.keyword
                                         (FilterStateCodec.decode search))))). }
  split; [apply H|]. repeat split. now rewrite H.
Qed.

End NavigationFacts.

(** ** The listing query and the URL *)

Section QueryFacts.
Import Js FilterStateCodec ThreadsListPage.

Lemma existsChar_trimStart (p : ascii -> bool) (s : string) :
  existsChar p s = false -> existsChar p (trimStart s) = false.
Proof.
  induction s as [|c r IH]; simpl; [auto|]. intros H.
  apply orb_false_iff in H as [Hc Hr].
  destruct (isWhiteSpace c); [now apply IH|]. simpl. now rewrite Hc, Hr.
Qed.

Lemma existsChar_trimEnd (p : ascii -> bool) (s : string) :
  existsChar p s = false -> existsChar p (trimEnd s) = false.
Proof.
  induction s as [|c r IH]; simpl; [auto|]. intros H.
  apply orb_false_iff in H as [Hc Hr].
  destruct (isWhiteSpace c && isEmpty (trimEnd r))%bool; [reflexivity|].
  simpl. now rewrite Hc, IH.
Qed.

Lemma split_parts_no_sep (sep : ascii) (s : string) :
  Forall (fun t => existsChar (fun c => Ascii.eqb c sep) t = false) (split sep s).
Proof.
  induction s as [|c r IH]; simpl; [repeat constructor|].
  destruct (Ascii.eqb c sep) eqn:E; [now constructor|].
  destruct (split sep r) as [|h t]; [repeat constructor; simpl; now rewrite E|].
  inversion IH as [|? ? Hh Ht]; subst. constructor; [|assumption].
  simpl. now rewrite E, Hh.
Qed.

(** The tags read from a URL hold no comma and no white space around. *)
Lemma decoded_tags_shape (search : URLSearchParams.t) :
  Forall (fun t => existsChar (fun c => Ascii.eqb c ",") t = false /\ trim t = t)
    (FilterStateCodec.tags (decode search)).
Proof.
  unfold decode. cbn [FilterStateCodec.tags].
  destruct (isEmpty (getOrEmpty search "tag")); [constructor|].
  apply Forall_forall. intros t Hin. apply in_map_iff in Hin as [u [<- Hu]].
  split; [|apply trim_idem].
  apply existsChar_trimEnd, existsChar_trimStart.
  assert (H := split_parts_no_sep "," (getOrEmpty search "tag")).
  rewrite Forall_forall in H. now apply H.
Qed.

Lemma join_empty (ts : list string) :
  isEmpty (join "," ts) = true -> ts = [] \/ ts = [EmptyString].
Proof.
  destruct ts as [|t rest]; [now left|]. intros H. right.
  destruct rest as [|u rest'].
  - simpl in H. apply isEmpty_true in H. now subst.
  - change (join "," (t :: u :: rest'))
      with (t ++ String "," (join "," (u :: rest')))%string in H.
    rewrite isEmpty_append in H. apply andb_true_iff in H as [_ H]. discriminate H.
Qed.

Lemma map_trim_id (ts : list string) :
  Forall (fun t => trim t = t) ts -> List.map trim ts = ts.
Proof.
  induction 1 as [|t rest Ht Hr IH]; simpl; [reflexivity|]. now rewrite Ht, IH.
Qed.

(** The listing query read back by the URL decoder. *)
Lemma decode_listParams (ts : list string) (categoryToUse : string) (targetPage : Z) :
  Forall (fun t => existsChar (fun c => Ascii.eqb c ",") t = false /\ trim t = t) ts ->
  ts <> [EmptyString] ->
  decode (listParams ts categoryToUse targetPage)
  = mkFilterState EmptyString ts (trim categoryToUse) 1.
Proof.
  intros Hts Hne.
  assert (Hc : Forall (fun t => existsChar (fun c => Ascii.eqb c ",") t = false) ts)
    by (eapply Forall_impl; [|exact Hts]; now intros t [H _]).
  assert (Ht : Forall (fun t => trim t = t) ts)
    by (eapply Forall_impl; [|exact Hts]; now intros t [_ H]).
  unfold decode, listParams, getOrEmpty.
  destruct ts as [|t rest].
  - cbn [isNil negb]. destruct (isEmpty (trim categoryToUse)) eqn:E;
      cbn -[trim]; [|reflexivity].
    apply isEmpty_true in E. now rewrite E.
  - cbn [isNil negb].
    assert (Hj : isEmpty (join "," (t :: rest)) = false).
    { destruct (isEmpty (join "," (t :: rest))) eqn:E; [|reflexivity].
      apply join_empty in E as [E | E]; [discriminate E | now contradiction Hne]. }
    destruct (isEmpty (trim categoryToUse)) eqn:E; cbn -[trim join split];
      rewrite Hj, split_join, map_trim_id by (assumption || discriminate).
    + apply isEmpty_true in E. now rewrite E.
    + reflexivity.
Qed.

(** X15.  The query the page sends to the listing is a deep link to the
    same filter: read back by the URL decoder it gives the same tags and
    the trimmed category, for every tag list without commas and outer
    white space other than the list of the one empty tag, and so for the
    tags decoded from any URL. *)
Theorem listing_query_is_a_deep_link (search : URLSearchParams.t)
  (ts : list string) (categoryToUse : string) (targetPage : Z) :
  (Forall (fun t => existsChar (fun c => Ascii.eqb c ",") t = false /\ trim t = t) ts ->
   ts <> [EmptyString] ->
   decode (listParams ts categoryToUse targetPage)
   = mkFilterState EmptyString ts (trim categoryToUse) 1)
  /\ (FilterStateCodec.tags (decode search) <> [EmptyString] ->
      decode (listParams (FilterStateCodec.tags (decode search))
                (categoryId (decode search)) targetPage)
      = mkFilterState EmptyString (FilterStateCodec.tags (decode search))
          (trim (categoryId (decode search))) 1).
Proof.
  split.
  - apply decode_listParams.
  - apply decode_listParams, decoded_tags_shape.
Qed.

Lemma listing_query_is_a_deep_link_witness :
  decode (listParams ["cs101"; "exam"] " 3 " 2)
  = mkFilterState EmptyString ["cs101"; "exam"] "3" 1
  /\ decode (listParams (FilterStateCodec.tags (decode [("tag", " A, ,b")])) "" 1)
     = mkFilterState EmptyString ["A"; EmptyString; "b"] EmptyString 1.
Proof.
  destruct (listing_query_is_a_deep_link [("tag", " A, ,b")] ["cs101"; "exam"] " 3 " 2)
    as [H1 _].
  destruct (listing_query_is_a_deep_link [("tag", " A, ,b")] [] "" 1) as [_ H2].
  split.
  - apply H1; [repeat constructor | discriminate].
  - apply H2. discriminate.
Defined.

End QueryFacts.

(** ** Clearing the filters, loading the categories *)

Section ClearFacts.
Import Js ThreadsListPage ThreadsListControls CategoriesApi.

Variable te : string.

(** The [try] block of [handleClear] is the one of the listing calls. *)
Lemma handleClearBody_threadsBody (r : Response) :
  threadsBody te r 1
  = match handleClearBody te r with
    | Return (results, totalThreads) => Return (Commit results totalThreads 1 false)
    | Throw m => Throw m
    end.
Proof.
  unfold threadsBody, handleClearBody, prop, bind.
  destruct r as [m | ok data]; [reflexivity|].
  destruct ok; cbn [negb].
  - destruct (getProp data "results"); [|reflexivity].
    destruct (getProp data "count"); reflexivity.
  - destruct (getProp data "error"); reflexivity.
Qed.

(** X16.  Clear empties the three filters before it asks for the first
    page of all threads, and its response never brings them back.  When
    the request fails the page therefore shows empty filters over the
    result page of before, with the error; when it succeeds the page
    commits what a listing call for page 1 commits. *)
Theorem clear_empties_filters_first (st : State) (r : Response) :
  let cleared := fst (handleClear st) in
  let done := handleClearResume te cleared r in
  snd (handleClear st) = fst (loadThreadsWithFilters [] EmptyString 1)
  /\ (q cleared, tags cleared, category cleared) = (EmptyString, [], EmptyString)
  /\ resultPage cleared = resultPage st
  /\ (q done, tags done, category done) = (EmptyString, [], EmptyString)
  /\ loading done = false
  /\ (forall m, threadsBody te r 1 = Throw m ->
        resultPage done = resultPage st /\ error done = Some m)
  /\ (forall results totalThreads pg searching,
        threadsBody te r 1 = Return (Commit results totalThreads pg searching) ->
        resultPage done = (results, totalThreads, 1) /\ error done = None).
Proof.
  intros cleared done. subst done cleared. unfold handleClearResume.
  rewrite handleClearBody_threadsBody.
  destruct (handleClearBody te r) as [[results t] | m]; cbn.
  - do 5 (split; [reflexivity|]). split.
    + intros m H. discriminate H.
    + intros rs tot p sr H. injection H as <- <- _ _. now split.
  - do 5 (split; [reflexivity|]). split.
    + intros m' H. injection H as <-. now split.
    + intros rs tot p sr H. discriminate H.
Qed.

(** X17.  [listCategories] never throws on a 2xx answer, whatever its
    body: an array is returned as it is, and a body that is [null], a
    primitive or an object without [results] gives the empty list.  It
    throws on every non-2xx answer and on a rejected request.  The
    listing calls differ: a [null] body of a 2xx answer makes them
    throw. *)
Theorem listCategories_total_on_success (data : JsVal) :
  (exists v, listCategories te (Reply true data) = Return v)
  /\ (isArray data = true -> listCategories te (Reply true data) = Return data)
  /\ (isArray data = false ->
      nullish (fieldOf data "results") (JArr []) = JArr [] ->
      listCategories te (Reply true data) = Return (JArr []))
  /\ listCategories te (Reply true JNull) = Return (JArr [])
  /\ listCategories te (Reply true (JObj [])) = Return (JArr [])
  /\ (exists m, listCategories te (Reply false data) = Throw m)
  /\ (forall m, listCategories te (Rejected m) = Throw m)
  /\ threadsBody te (Reply true JNull) 1 = Throw te.
Proof.
  unfold listCategories. cbn [negb].
  split; [|split; [|split; [|split; [|split; [|split; [|split]]]]]];
    try reflexivity.
  - destruct (truthy data && isArray data)%bool; eauto.
  - intros H. destruct data; try discriminate H. reflexivity.
  - intros H Hn. rewrite H, andb_false_r. now rewrite Hn.
  - unfold prop, bind. destruct (getProp data "error"); eauto.
Qed.

End ClearFacts.

Lemma clear_empties_filters_first_witness :
  let st := ThreadsListPage.setTags ["cs101"]
              (ThreadsListPage.commit (Js.JArr [Js.JNum 7]) (Js.JNum 1) 1 false
                 ThreadsListPage.initial) in
  let done := ThreadsListControls.handleClearResume "TypeError"
                (fst (ThreadsListControls.handleClear st))
                (ThreadsListPage.Rejected "Failed to fetch") in
  ThreadsListPage.tags done = []
  /\ ThreadsListPage.resultPage done = (Js.JArr [Js.JNum 7], Js.JNum 1, 1)
  /\ ThreadsListPage.error done = Some "Failed to fetch".
Proof.
  intros st done.
  destruct (clear_empties_filters_first "TypeError" st
              (ThreadsListPage.Rejected "Failed to fetch"))
    as [_ [_ [_ [H4 [_ [H6 _]]]]]].
  destruct (H6 "Failed to fetch" eq_refl) as [H7 H8].
  split; [|split]; [|exact H7|exact H8].
  exact (f_equal (fun x => snd (fst x)) H4).
Defined.

Lemma listCategories_total_on_success_witness :
  CategoriesApi.listCategories "TypeError"
    (ThreadsListPage.Reply true (Js.JObj [("detail", Js.JStr "none")]))
  = ThreadsListPage.Return (Js.JArr []).
Proof.
  destruct (listCategories_total_on_success "TypeError"
              (Js.JObj [("detail", Js.JStr "none")])) as [_ [_ [H _]]].
  apply H; reflexivity.
Defined.

(** ** From a listing response to the Next button *)

Section ListingFacts.
Import Js ThreadsListPage ThreadsListControls.

Variable te : string.

Lemma threadsBody_paginated (data rs : JsVal) (count targetPage : Z) :
  getProp data "results" = Some rs ->
  getProp data "count" = Some (JNum count) ->
  threadsBody te (Reply true data) targetPage
  = Return (Commit (nullish rs data) (JNum count) targetPage false).
Proof.
  intros Hr Hc. unfold threadsBody, prop, bind. cbn [negb]. now rewrite Hr, Hc.
Qed.

Lemma threadsBody_array (items : list JsVal) (targetPage : Z) :
  threadsBody te (Reply true (JArr items)) targetPage
  = Return (Commit (JArr items) (JNum (Z.of_nat (List.length items))) targetPage
              false).
Proof. reflexivity. Qed.

Lemma next_after_commit (st : State) (results : JsVal) (n targetPage : Z)
  (searching : bool) :
  nextDisabled (commit results (JNum n) targetPage searching st)
  = Some (negb (PAGE_SIZE * targetPage <? n)).
Proof.
  unfold nextDisabled.
  change (total (commit results (JNum n) targetPage searching st)) with (JNum n).
  change (page (commit results (JNum n) targetPage searching st)) with targetPage.
  change (loading (commit results (JNum n) targetPage searching st)) with false.
  cbn [orb]. f_equal.
  destruct (Z.leb_spec (ceilDiv n PAGE_SIZE) targetPage) as [H | H];
    destruct (Z.ltb_spec (PAGE_SIZE * targetPage) n) as [G | G];
    try reflexivity; exfalso.
  - apply ceilDiv_le in H. lia.
  - apply ceilDiv_le in G. lia.
Qed.

(** X18.  Once a listing call has committed its response for page [p],
    Next is enabled exactly when the response promises threads beyond
    that page: [20 * p < count] for a body with [results] and a numeric
    [count], [20 * p < length] for a body that is a bare array, whose
    length is taken as the total. *)
Theorem next_follows_listing_response (st : State) (targetPage : Z) :
  (forall data rs count,
      getProp data "results" = Some rs ->
      getProp data "count" = Some (JNum count) ->
      let st' := fst (resume te st (AwaitThreads targetPage) (Reply true data)) in
      threads st' = nullish rs data
      /\ total st' = JNum count
      /\ page st' = targetPage
      /\ nextDisabled st' = Some (negb (PAGE_SIZE * targetPage <? count)))
  /\ (forall items,
        let st' := fst (resume te st (AwaitThreads targetPage) (Reply true (JArr items))) in
        threads st' = JArr items
        /\ total st' = JNum (Z.of_nat (List.length items))
        /\ nextDisabled st'
           = Some (negb (PAGE_SIZE * targetPage <? Z.of_nat (List.length items)))).
Proof.
  split.
  - intros data rs count Hr Hc st'. subst st'.
    unfold resume. cbn [body]. rewrite (threadsBody_paginated data rs count _ Hr Hc).
    cbn [settle fst]. rewrite next_after_commit. now repeat split.
  - intros items st'. subst st'.
    unfold resume. cbn [body]. rewrite threadsBody_array.
    cbn [settle fst]. rewrite next_after_commit. now repeat split.
Qed.

End ListingFacts.

Lemma next_follows_listing_response_witness :
  ThreadsListControls.nextDisabled
    (fst (ThreadsListPage.resume "TypeError" ThreadsListPage.initial
            (ThreadsListPage.AwaitThreads 2)
            (ThreadsListPage.Reply true
               (Js.JObj [("results", Js.JArr []); ("count", Js.JNum 41)]))))
  = Some false.
Proof.
  destruct (next_follows_listing_response "TypeError" ThreadsListPage.initial 2)
    as [H _].
  destruct (H (Js.JObj [("results", Js.JArr []); ("count", Js.JNum 41)])
              (Js.JArr []) 41 eq_refl eq_refl) as [_ [_ [_ H4]]].
  exact H4.
Defined.
